(** * Nebula Talks backend: presence tracking, robot signal dispatch and
      the myCobot client, as a shallow embedding of
      [src/backend/main.py], [src/backend/robot_signal.py] and
      [src/backend/mycobot_integration.py]. *)

From Stdlib Require Import List String Ascii Bool ZArith Lia.
Import ListNotations.
Open Scope string_scope.
Open Scope list_scope.
Set Warnings "-register-all".

(* ------------------------------------------------------------------ *)
(** ** JSON values and Python truthiness                               *)
(* ------------------------------------------------------------------ *)

(** Values that come out of [json.load] or a FastAPI [dict] body.
    Numbers are modelled as integers. An object is a Python [dict]
    with string keys, kept in insertion order. *)
Inductive json : Type :=
| JNull : json
| JBool : bool -> json
| JNum : Z -> json
| JStr : string -> json
| JArr : list json -> json
| JObj : list (string * json) -> json.

Definition dict := list (string * json).

(** [bool(v)] in Python. *)
Definition truthy (v : json) : bool :=
  match v with
  | JNull => false
  | JBool b => b
  | JNum z => negb (Z.eqb z 0)
  | JStr s => negb (String.eqb s "")
  | JArr l => match l with [] => false | _ => true end
  | JObj l => match l with [] => false | _ => true end
  end.

(** [d.get(k)] on a dict with string keys. *)
Fixpoint dict_get (k : string) (d : dict) : option json :=
  match d with
  | [] => None
  | (k', v) :: d' => if String.eqb k k' then Some v else dict_get k d'
  end.

(** [d[k] = v]: update the existing entry in place, or append. *)
Fixpoint dict_set (k : string) (v : json) (d : dict) : dict :=
  match d with
  | [] => [(k, v)]
  | (k', v') :: d' =>
      if String.eqb k k' then (k', v) :: d' else (k', v') :: dict_set k v d'
  end.

(** [{**a, **b}]: the entries of [a], then each entry of [b] written
    over it in order. *)
Definition dict_merge (a b : dict) : dict :=
  fold_left (fun acc kv => dict_set (fst kv) (snd kv) acc) b a.

(* ------------------------------------------------------------------ *)
(** ** Presence tracking in [detect_person] (main.py)                  *)
(* ------------------------------------------------------------------ *)

Module Presence.

(** The module globals [user_was_present] and [user_spoken]. *)
Record state := mkState { user_was_present : bool; user_spoken : bool }.

Definition initial : state := mkState false false.

(** The three branches of [detect_person] that send commands, named as
    the spec names the events:
    - [ENTERED]: [send_to_mycobot("go_to_celebrate_pose")];
    - [LEFT_AFTER_SPEECH]: [send_to_mycobot("wave_hand")] and a
      ["user_left_after_speaking"] signal to [robot_service];
    - [LEFT]: [send_to_mycobot("hold_and_home")]. *)
Inductive event := ENTERED | LEFT_AFTER_SPEECH | LEFT.

Definition event_eqb (a b : event) : bool :=
  match a, b with
  | ENTERED, ENTERED | LEFT_AFTER_SPEECH, LEFT_AFTER_SPEECH | LEFT, LEFT => true
  | _, _ => false
  end.

Definition is_left (e : event) : bool :=
  match e with ENTERED => false | _ => true end.

(** One call of [detect_person] after the detector returned
    [person_found]: the events its three [if] statements emit, in order,
    and the new globals. The sends themselves never raise
    ([MyCobotClient.send_signal] and [RobotSignalService.send_signal]
    catch every transport error), so every branch runs to its end. *)
Definition detect_person (s : state) (person_found : bool)
  : list event * state :=
  let user_is_present := person_found in
  let e1 := if negb (user_was_present s) && user_is_present
            then [ENTERED] else [] in
  let '(e2, spoken') :=
    if user_was_present s && user_spoken s && negb user_is_present
    then ([LEFT_AFTER_SPEECH], false)
    else ([], user_spoken s) in
  let e3 := if user_was_present s && negb user_is_present
            then [LEFT] else [] in
  (e1 ++ e2 ++ e3, mkState user_is_present spoken').

(** [POST /api/robot/mark-spoken]. *)
Definition mark_user_spoken (s : state) : state :=
  mkState (user_was_present s) true.

Definition count_ev (e : event) (l : list event) : nat :=
  List.length (filter (event_eqb e) l).

Definition count_left (l : list event) : nat :=
  List.length (filter is_left l).



(** The requests that read or write the globals, in the order the
    server handles them: a [POST /detect] whose detector returned
    [person_found], or a [POST /api/robot/mark-spoken]. *)
Inductive request := Detect (person_found : bool) | MarkSpoken.

Fixpoint serve (s : state) (rs : list request) : list event * state :=
  match rs with
  | [] => ([], s)
  | Detect d :: rs' =>
      let '(es, s1) := detect_person s d in
      let '(es', s2) := serve s1 rs' in
      (es ++ es', s2)
  | MarkSpoken :: rs' => serve (mark_user_spoken s) rs'
  end.


End Presence.

(* ------------------------------------------------------------------ *)
(** ** The myCobot WebSocket client (mycobot_integration.py)           *)
(* ------------------------------------------------------------------ *)

Module MyCobot.

(** The fields of [MyCobotClient] that [send_signal] reads and writes;
    [websocket] is the open connection (a handle) and [written] the
    frames written on it so far. *)
Record client := mkClient {
  connected : bool;
  websocket : option nat;
  written : list dict
}.

(** [{"signalType": ..., "timestamp": ..., "data": data or {}}], with
    [now] the value of [datetime.now().isoformat()]. *)
Definition message (signal_type : string) (now : string) (data : json) : dict :=
  [("signalType", JStr signal_type); ("timestamp", JStr now);
   ("data", if truthy data then data else JObj [])].

(** [MyCobotClient.send_signal]; [send_ok] says whether
    [self.websocket.send(...)] returned or raised. *)
Definition send_signal (c : client) (signal_type : string) (data : json)
    (now : string) (send_ok : bool) : bool * client :=
  if negb (connected c)
     || match websocket c with None => true | Some _ => false end
  then (false, c)
  else if send_ok
  then (true, mkClient (connected c) (websocket c)
                 (written c ++ [message signal_type now data]))
  else (false, mkClient false (websocket c) (written c)).

(** The guard [self.connected and self.websocket]. *)
Definition is_connected (c : client) : bool :=
  connected c && match websocket c with Some _ => true | None => false end.

End MyCobot.

(* ------------------------------------------------------------------ *)
(** ** Robot registry and signal dispatch (robot_signal.py)            *)
(* ------------------------------------------------------------------ *)

Module Dispatch.

Inductive RobotProtocol := HTTP | WEBSOCKET | MQTT | SERIAL.

(** [RobotConfig]. The dataclass does not check its field types, and
    every robot comes from JSON ([robots.json] or the body of
    [POST /api/robots]), so each field holds the JSON value it was
    given; only [protocol] goes through the [RobotProtocol] enum. *)
Record RobotConfig := mkRobot {
  id : json;
  name : json;
  protocol : RobotProtocol;
  enabled : json;
  url : json;
  headers : json;
  mqtt_broker : json;
  mqtt_port : json;
  mqtt_topic : json;
  mqtt_username : json;
  mqtt_password : json;
  serial_port : json;
  serial_baudrate : json;
  commands : json
}.

(** [RobotSignal]; [timestamp] is its [isoformat()] string. *)
Record RobotSignal := mkSignal {
  signal_type : string;
  timestamp : string;
  data : json
}.

Definition to_dict (s : RobotSignal) : dict :=
  [("signalType", JStr (signal_type s));
   ("timestamp", JStr (timestamp s));
   ("data", data s)].

(** Python dict keys drawn from JSON: strings, numbers, booleans (with
    [True == 1] and [False == 0]) and [None]; lists and dicts are not
    hashable. *)
Definition hashable (k : json) : bool :=
  match k with JArr _ | JObj _ => false | _ => true end.

Definition num_of (k : json) : option Z :=
  match k with
  | JNum z => Some z
  | JBool b => Some (if b then 1%Z else 0%Z)
  | _ => None
  end.

Definition key_eqb (a b : json) : bool :=
  match a, b with
  | JStr x, JStr y => String.eqb x y
  | JNull, JNull => true
  | _, _ =>
      match num_of a, num_of b with
      | Some x, Some y => Z.eqb x y
      | _, _ => false
      end
  end.

Fixpoint kget {V} (k : json) (d : list (json * V)) : option V :=
  match d with
  | [] => None
  | (k', v) :: d' => if key_eqb k k' then Some v else kget k d'
  end.

(** [d[k] = v]: the first key equal to [k] keeps its place and takes
    the new value; otherwise the entry is appended. *)
Fixpoint kset {V} (k : json) (v : V) (d : list (json * V)) : list (json * V) :=
  match d with
  | [] => [(k, v)]
  | (k', v') :: d' =>
      if key_eqb k k' then (k', v) :: d' else (k', v') :: kset k v d'
  end.

Fixpoint kdel {V} (k : json) (d : list (json * V)) : list (json * V) :=
  match d with
  | [] => []
  | (k', v') :: d' => if key_eqb k k' then d' else (k', v') :: kdel k d'
  end.

(** The attributes of [RobotSignalService]. Connection objects are
    handles: a WebSocket, an MQTT client, an open serial port. *)
Record service := mkService {
  robots : list (json * RobotConfig);
  websocket_connections : list (json * nat);
  mqtt_client : option nat;
  serial_connections : list (json * nat)
}.

Definition empty_service : service := mkService [] [] None [].

(** Calls into libraries and the outside world. Calls that create a
    connection object return a fresh handle. *)
Inductive io_call :=
| IoHttpPost (url headers : json) (body : dict)
| IoWsConnect (url : json)
| IoWsSend (ws : nat) (body : dict)
| IoMqttNew
| IoMqttAuth (c : nat) (username password : json)
| IoMqttConnect (c : nat) (broker port : json)
| IoMqttLoopStart (c : nat)
| IoMqttPublish (c : nat) (topic : json) (body : dict)
| IoSerialOpen (port baudrate : json)
| IoSerialWrite (ser : nat) (line : dict)
| IoSerialFlush (ser : nat)
| IoSaveRobots (snapshot : list RobotConfig).

(** The trace: every library call with its tick and outcome, plus the
    success log line of [send_signal] and two ghost markers around each
    [_send_to_robot] call (its start, and the boolean it returns). *)
Inductive ev :=
| EvIo (tick : nat) (c : io_call) (ok : bool)
| EvAttempt (robot_id : json)
| EvResult (robot_id : json) (ok : bool)
| EvSummary (success total : nat).

Inductive exn := KeyError | TypeError | AttributeError | ValueError | IoError.

Inductive res (A : Type) := Ok (a : A) | Raise (e : exn).
Arguments Ok {A} a.
Arguments Raise {A} e.

Record world := mkWorld { svc : service; clock : nat; trace : list ev }.

(** Python's sequential semantics: state changes made before an
    exception stay in place. *)
Definition M (A : Type) := world -> res A * world.

Definition ret {A} (a : A) : M A := fun w => (Ok a, w).
Definition raise {A} (e : exn) : M A := fun w => (Raise e, w).
Definition bind {A B} (m : M A) (k : A -> M B) : M B :=
  fun w => match m w with
           | (Ok a, w') => k a w'
           | (Raise e, w') => (Raise e, w')
           end.
Definition lift {A} (r : res A) : M A :=
  match r with Ok a => ret a | Raise e => raise e end.

(** [try: m except Exception as e: h e]. *)
Definition catch {A} (m : M A) (h : exn -> M A) : M A :=
  fun w => match m w with
           | (Ok a, w') => (Ok a, w')
           | (Raise e, w') => h e w'
           end.

Definition get : M service := fun w => (Ok (svc w), w).
Definition put (s : service) : M unit :=
  fun w => (Ok tt, mkWorld s (clock w) (trace w)).
Definition emit (e : ev) : M unit :=
  fun w => (Ok tt, mkWorld (svc w) (clock w) (trace w ++ [e])).

Notation "x <- m ;; k" := (bind m (fun x => k))
  (at level 61, m at next level, right associativity).
Notation "m ;;; k" := (bind m (fun _ => k))
  (at level 61, right associativity).


Section Connectors.

(** Whether the library call made at a given tick returns or raises:
    the network, the broker, the serial device and the file system. *)
Variable net : nat -> io_call -> bool.

Definition io (c : io_call) : M nat :=
  fun w =>
    let t := clock w in
    let ok := net t c in
    ((if ok then Ok t else Raise IoError),
     mkWorld (svc w) (S t) (trace w ++ [EvIo t c ok])).

(** A library constructor that does no I/O ([MQTTClient(...)]): it
    always returns a fresh handle. *)
Definition alloc (c : io_call) : M nat :=
  fun w =>
    let t := clock w in
    (Ok t, mkWorld (svc w) (S t) (trace w ++ [EvIo t c true])).

(** [k in d], [d[k]], [d[k] = v] and [del d[k]] on a dict keyed by a
    JSON value. *)
Definition kin {V} (k : json) (d : list (json * V)) : M bool :=
  if hashable k then ret (match kget k d with Some _ => true | None => false end)
  else raise TypeError.

Definition klookup {V} (k : json) (d : list (json * V)) : M V :=
  if hashable k then
    match kget k d with Some v => ret v | None => raise KeyError end
  else raise TypeError.

Definition set_ws (d : list (json * nat)) (s : service) : service :=
  mkService (robots s) d (mqtt_client s) (serial_connections s).
Definition set_mqtt (c : option nat) (s : service) : service :=
  mkService (robots s) (websocket_connections s) c (serial_connections s).
Definition set_serial (d : list (json * nat)) (s : service) : service :=
  mkService (robots s) (websocket_connections s) (mqtt_client s) d.
Definition set_robots (d : list (json * RobotConfig)) (s : service) : service :=
  mkService d (websocket_connections s) (mqtt_client s) (serial_connections s).

(** [_send_http]: [post] followed by [raise_for_status] is one call. *)
Definition _send_http (robot : RobotConfig) (signal_data : dict) : M bool :=
  if negb (truthy (url robot)) then ret false
  else catch (io (IoHttpPost (url robot) (headers robot) signal_data) ;;;
              ret true)
             (fun _ => ret false).

(** [_send_websocket]. *)
Definition _send_websocket (robot : RobotConfig) (signal_data : dict) : M bool :=
  if negb (truthy (url robot)) then ret false
  else catch
    (s <- get ;;
     known <- kin (id robot) (websocket_connections s) ;;
     (if known then ret tt
      else ws <- io (IoWsConnect (url robot)) ;;
           s <- get ;;
           (if hashable (id robot) then ret tt else raise TypeError) ;;;
           put (set_ws (kset (id robot) ws (websocket_connections s)) s)) ;;;
     s <- get ;;
     ws <- klookup (id robot) (websocket_connections s) ;;
     io (IoWsSend ws signal_data) ;;;
     ret true)
    (fun _ =>
     s <- get ;;
     known <- kin (id robot) (websocket_connections s) ;;
     (if known then put (set_ws (kdel (id robot) (websocket_connections s)) s)
      else ret tt) ;;;
     ret false).

(** [_send_mqtt]: one client for the whole service, created, given the
    credentials and connected the first time it is missing. *)
Definition _send_mqtt (robot : RobotConfig) (signal_data : dict) : M bool :=
  if negb (truthy (mqtt_broker robot)) || negb (truthy (mqtt_topic robot))
  then ret false
  else catch
    (s <- get ;;
     (match mqtt_client s with
      | None =>
          c <- alloc IoMqttNew ;;
          s <- get ;;
          put (set_mqtt (Some c) s) ;;;
          (if truthy (mqtt_username robot) && truthy (mqtt_password robot)
           then io (IoMqttAuth c (mqtt_username robot) (mqtt_password robot)) ;;;
                ret tt
           else ret tt) ;;;
          io (IoMqttConnect c (mqtt_broker robot) (mqtt_port robot)) ;;;
          io (IoMqttLoopStart c) ;;;
          ret tt
      | Some _ => ret tt
      end) ;;;
     s <- get ;;
     (match mqtt_client s with
      | Some c => io (IoMqttPublish c (mqtt_topic robot) signal_data) ;;; ret tt
      | None => raise AttributeError
      end) ;;;
     ret true)
    (fun _ => ret false).

(** [_send_serial]; the line written is [json.dumps(signal_data) + "\n"]. *)
Definition _send_serial (robot : RobotConfig) (signal_data : dict) : M bool :=
  if negb (truthy (serial_port robot)) then ret false
  else catch
    (s <- get ;;
     known <- kin (id robot) (serial_connections s) ;;
     (if known then ret tt
      else ser <- io (IoSerialOpen (serial_port robot) (serial_baudrate robot)) ;;
           s <- get ;;
           (if hashable (id robot) then ret tt else raise TypeError) ;;;
           put (set_serial (kset (id robot) ser (serial_connections s)) s)) ;;;
     s <- get ;;
     ser <- klookup (id robot) (serial_connections s) ;;
     io (IoSerialWrite ser signal_data) ;;;
     io (IoSerialFlush ser) ;;;
     ret true)
    (fun _ =>
     s <- get ;;
     known <- kin (id robot) (serial_connections s) ;;
     (if known then put (set_serial (kdel (id robot) (serial_connections s)) s)
      else ret tt) ;;;
     ret false).

(** Lines 183-188 of [_send_to_robot]: [robot.commands.get(...)] (the
    commands must be a dict), and, when the override is truthy,
    [{**signal.to_dict(), **custom_command}] (the override must be a
    mapping). *)
Definition signal_payload (robot : RobotConfig) (signal : RobotSignal) : res dict :=
  match commands robot with
  | JObj cmds =>
      match dict_get (signal_type signal) cmds with
      | Some custom_command =>
          if truthy custom_command then
            match custom_command with
            | JObj ov => Ok (dict_merge (to_dict signal) ov)
            | _ => Raise TypeError
            end
          else Ok (to_dict signal)
      | None => Ok (to_dict signal)
      end
  | _ => Raise AttributeError
  end.

Definition send_by_protocol (robot : RobotConfig) (signal_data : dict) : M bool :=
  match protocol robot with
  | HTTP => _send_http robot signal_data
  | WEBSOCKET => _send_websocket robot signal_data
  | MQTT => _send_mqtt robot signal_data
  | SERIAL => _send_serial robot signal_data
  end.

(** [_send_to_robot], between its two ghost markers. *)
Definition _send_to_robot (robot : RobotConfig) (signal : RobotSignal) : M bool :=
  emit (EvAttempt (id robot)) ;;;
  ok <- catch (signal_data <- lift (signal_payload robot signal) ;;
               send_by_protocol robot signal_data)
              (fun _ => ret false) ;;
  emit (EvResult (id robot) ok) ;;;
  ret ok.

(** [asyncio.gather( *tasks, return_exceptions=True)], with the tasks
    run one after the other in list order: an exception becomes a
    result that is not [True]. *)
Fixpoint gather (tasks : list (M bool)) : M (list (option bool)) :=
  match tasks with
  | [] => ret []
  | t :: ts =>
      r <- catch (b <- t ;; ret (Some b)) (fun _ => ret None) ;;
      rs <- gather ts ;;
      ret (r :: rs)
  end.

Definition count_true (rs : list (option bool)) : nat :=
  List.length (filter (fun r => match r with Some true => true | _ => false end) rs).

Definition enabled_robots (s : service) : list RobotConfig :=
  filter (fun r => truthy (enabled r)) (map snd (robots s)).

(** [send_signal(signal, robot_id)]; [if robot_id] is false for [None]
    and for the empty string. *)
Definition send_signal (signal : RobotSignal) (robot_id : option string) : M unit :=
  s <- get ;;
  target_robots <-
    (match robot_id with
     | Some rid =>
         if negb (String.eqb rid "") then
           r <- klookup (JStr rid) (robots s) ;; ret [r]
         else ret (enabled_robots s)
     | None => ret (enabled_robots s)
     end) ;;
  match target_robots with
  | [] => ret tt
  | _ =>
      results <- gather (map (fun r => _send_to_robot r signal) target_robots) ;;
      emit (EvSummary (count_true results) (List.length target_robots))
  end.

(** [RobotProtocol(value)]. *)
Definition protocol_of (v : json) : res RobotProtocol :=
  match v with
  | JStr "http" => Ok HTTP
  | JStr "websocket" => Ok WEBSOCKET
  | JStr "mqtt" => Ok MQTT
  | JStr "serial" => Ok SERIAL
  | _ => Raise ValueError
  end.

(** [robot_data[key]] and [robot_data.get(key, default)]; a value that
    is not a dict cannot be subscripted. *)
Definition subscript (robot_data : json) (key : string) : res json :=
  match robot_data with
  | JObj fs => match dict_get key fs with Some v => Ok v | None => Raise KeyError end
  | _ => Raise TypeError
  end.

Definition get_or (fs : dict) (key : string) (default : json) : json :=
  match dict_get key fs with Some v => v | None => default end.

(** The [RobotConfig(...)] call that [load_robots] (robot_signal.py,
    lines 88-103) and the [add_robot] endpoint (main.py, lines 293-308)
    both make, arguments evaluated left to right. *)
Definition parse_robot_config (robot_data : json) : res RobotConfig :=
  match subscript robot_data "id", subscript robot_data "name" with
  | Raise e, _ => Raise e
  | Ok _, Raise e => Raise e
  | Ok rid, Ok rname =>
      match subscript robot_data "protocol" with
      | Raise e => Raise e
      | Ok p =>
          match protocol_of p, robot_data with
          | Raise e, _ => Raise e
          | Ok proto, JObj fs =>
              Ok (mkRobot rid rname proto
                    (get_or fs "enabled" (JBool true))
                    (get_or fs "url" JNull)
                    (get_or fs "headers" (JObj []))
                    (get_or fs "mqtt_broker" JNull)
                    (get_or fs "mqtt_port" (JNum 1883))
                    (get_or fs "mqtt_topic" JNull)
                    (get_or fs "mqtt_username" JNull)
                    (get_or fs "mqtt_password" JNull)
                    (get_or fs "serial_port" JNull)
                    (get_or fs "serial_baudrate" (JNum 9600))
                    (get_or fs "commands" (JObj [])))
          | Ok _, _ => Raise TypeError
          end
      end
  end.

(** [self.robots[robot.id] = robot]. *)
Definition store_robot (robot : RobotConfig) : M unit :=
  if hashable (id robot) then
    s <- get ;; put (set_robots (kset (id robot) robot (robots s)) s)
  else raise TypeError.

(** [save_robots()]: one write of [robots.json]. *)
Definition save_robots : M unit :=
  s <- get ;; io (IoSaveRobots (map snd (robots s))) ;;; ret tt.

(** [RobotSignalService.add_robot]. *)
Definition add_robot (robot : RobotConfig) : M unit :=
  store_robot robot ;;; save_robots.

(** The [add_robot] endpoint of main.py; FastAPI hands it the request
    body as a dict, and an exception becomes an error response. *)
Definition add_robot_endpoint (body : dict) : M unit :=
  robot_config <- lift (parse_robot_config (JObj body)) ;;
  add_robot robot_config.

(** [for robot_data in x]: a list yields its items, a dict its keys and
    a string its characters; anything else is not iterable. *)
Definition iter_items (x : json) : res (list json) :=
  match x with
  | JArr l => Ok l
  | JObj fs => Ok (map (fun kv => JStr (fst kv)) fs)
  | JStr str => Ok (map (fun c => JStr (String c EmptyString)) (list_ascii_of_string str))
  | _ => Raise TypeError
  end.

Fixpoint load_each (items : list json) : M unit :=
  match items with
  | [] => ret tt
  | robot_data :: rest =>
      robot <- lift (parse_robot_config robot_data) ;;
      store_robot robot ;;;
      load_each rest
  end.

(** [load_robots]; [file] is the parsed content of [robots.json], or
    [None] when the file is missing or is not JSON. Every exception is
    caught and logged. *)
Definition load_robots (file : option json) : M unit :=
  catch
    (match file with
     | None => raise IoError
     | Some (JObj fs) =>
         items <- lift (iter_items (get_or fs "robots" (JArr []))) ;;
         load_each items
     | Some _ => raise AttributeError
     end)
    (fun _ => ret tt).

End Connectors.

End Dispatch.


(* ------------------------------------------------------------------ *)
(** ** Observations on traces                                           *)
(* ------------------------------------------------------------------ *)

Module Observe.
Import Dispatch.

Definition is_marker (e : ev) : bool :=
  match e with EvIo _ _ _ => false | _ => true end.

(** A computation that adds only library calls to the trace. *)
Definition io_only {A} (m : M A) : Prop :=
  forall w, exists l, trace (snd (m w)) = trace w ++ l /\ filter is_marker l = [].

(** The markers one [_send_to_robot] call per robot leaves, given the
    booleans the calls returned. *)
Fixpoint attempt_markers (rs : list RobotConfig) (bs : list bool) : list ev :=
  match rs, bs with
  | r :: rs', b :: bs' =>
      EvAttempt (id r) :: EvResult (id r) b :: attempt_markers rs' bs'
  | _, _ => []
  end.

Definition count_b (bs : list bool) : nat := List.length (filter (fun b => b) bs).

(** The calls on MQTT clients in a trace. *)
Definition is_mqtt_call (c : io_call) : bool :=
  match c with
  | IoMqttNew | IoMqttAuth _ _ _ | IoMqttConnect _ _ _ | IoMqttLoopStart _
  | IoMqttPublish _ _ _ => true
  | _ => false
  end.

Fixpoint mqtt_calls (l : list ev) : list io_call :=
  match l with
  | [] => []
  | EvIo _ c _ :: l' => if is_mqtt_call c then c :: mqtt_calls l' else mqtt_calls l'
  | _ :: l' => mqtt_calls l'
  end.

(** The set-up [_send_mqtt] makes when the shared client is missing. *)
Definition mqtt_setup (c : nat) (r : RobotConfig) : list io_call :=
  [IoMqttNew] ++
  (if truthy (mqtt_username r) && truthy (mqtt_password r)
   then [IoMqttAuth c (mqtt_username r) (mqtt_password r)] else []) ++
  [IoMqttConnect c (mqtt_broker r) (mqtt_port r); IoMqttLoopStart c].

Definition is_publish_on (c : nat) (call : io_call) : bool :=
  match call with IoMqttPublish c' _ _ => Nat.eqb c c' | _ => false end.

(** A delivery reaches [_send_mqtt] past its configuration check. *)
Definition reaches_mqtt (r : RobotConfig) (sig : RobotSignal) : bool :=
  match protocol r, signal_payload r sig with
  | MQTT, Ok _ => truthy (mqtt_broker r) && truthy (mqtt_topic r)
  | _, _ => false
  end.

Fixpoint first_mqtt (jobs : list (RobotConfig * RobotSignal)) : option RobotConfig :=
  match jobs with
  | [] => None
  | (r, sig) :: jobs' => if reaches_mqtt r sig then Some r else first_mqtt jobs'
  end.

(** Deliveries made one after the other through [_send_to_robot]. *)
Fixpoint deliver_all (net : nat -> io_call -> bool)
    (jobs : list (RobotConfig * RobotSignal)) : M unit :=
  match jobs with
  | [] => ret tt
  | (r, sig) :: jobs' => _send_to_robot net r sig ;;; deliver_all net jobs'
  end.

End Observe.


(* ------------------------------------------------------------------ *)
(** ** Concrete robots, signals and transports used in examples         *)
(* ------------------------------------------------------------------ *)

Module Fixtures.
Import Dispatch.

(** An HTTP robot that is switched off. *)
Definition disabled_http : RobotConfig :=
  mkRobot (JStr "r1") (JStr "Robot 1") HTTP (JBool false) (JStr "http://r1.local/signal")
    (JObj []) JNull (JNum 1883) JNull JNull JNull JNull (JNum 9600) (JObj []).

(** An enabled HTTP robot with a command override for [wave_hand]. *)
Definition wave_robot : RobotConfig :=
  mkRobot (JStr "r2") (JStr "Robot 2") HTTP (JBool true) (JStr "http://r2.local/signal")
    (JObj []) JNull (JNum 1883) JNull JNull JNull JNull (JNum 9600)
    (JObj [("wave_hand", JObj [("speed", JStr "fast")])]).

Definition one_robot_world : world :=
  mkWorld (mkService [(JStr "r1", disabled_http)] [] None []) 0 [].

(** Every library call returns. *)
Definition all_ok : nat -> io_call -> bool := fun _ _ => true.

Definition wave : RobotSignal := mkSignal "wave_hand" "2026-10-17T12:00:00" (JObj []).

(** Two MQTT robots on different brokers; the second one has credentials. *)
Definition mqtt_robot : RobotConfig :=
  mkRobot (JStr "m1") (JStr "MQTT robot 1") MQTT (JBool true) JNull (JObj [])
    (JStr "broker.local") (JNum 1883) (JStr "robots/m1") JNull JNull JNull (JNum 9600) (JObj []).

Definition mqtt_robot2 : RobotConfig :=
  mkRobot (JStr "m2") (JStr "MQTT robot 2") MQTT (JBool true) JNull (JObj [])
    (JStr "broker2.local") (JNum 8883) (JStr "robots/m2") (JStr "user") (JStr "secret")
    JNull (JNum 9600) (JObj []).

Definition ws_robot : RobotConfig :=
  mkRobot (JStr "w1") (JStr "WS robot") WEBSOCKET (JBool true) (JStr "ws://w1.local") (JObj [])
    JNull (JNum 1883) JNull JNull JNull JNull (JNum 9600) (JObj []).

Definition robots_world : world :=
  mkWorld (mkService [(JStr "m1", mqtt_robot); (JStr "w1", ws_robot)] [] None []) 0 [].

Definition empty_world : world := mkWorld (mkService [] [] None []) 0 [].

(** The broker refuses every connection; everything else returns. *)
Definition broker_down : nat -> io_call -> bool :=
  fun _ c => match c with IoMqttConnect _ _ _ => false | _ => true end.

(** The WebSocket send made at time 1 raises; everything else returns. *)
Definition first_ws_send_fails : nat -> io_call -> bool :=
  fun t c => match c with IoWsSend _ _ => negb (Nat.eqb t 1) | _ => true end.

(** A request body for an HTTP robot without a [url]. *)
Definition http_without_url : dict :=
  [("id", JStr "r9"); ("name", JStr "No URL"); ("protocol", JStr "http")].

(** A [robots.json] whose second entry names an unknown protocol and
    whose third entry is well formed. *)
Definition robots_file_bad_protocol : json :=
  JObj [("robots", JArr [
    JObj [("id", JStr "a"); ("name", JStr "A"); ("protocol", JStr "http");
          ("url", JStr "http://a.local")];
    JObj [("id", JStr "b"); ("name", JStr "B"); ("protocol", JStr "ftp")];
    JObj [("id", JStr "c"); ("name", JStr "C"); ("protocol", JStr "http");
          ("url", JStr "http://c.local")]])].

End Fixtures.


(* ------------------------------------------------------------------ *)
(** ** Robot management: persistence, removal and the test endpoint    *)
(* ------------------------------------------------------------------ *)

Module Registry.
Import Dispatch.

(** [RobotProtocol.value]. *)
Definition protocol_value (p : RobotProtocol) : string :=
  match p with
  | HTTP => "http"
  | WEBSOCKET => "websocket"
  | MQTT => "mqtt"
  | SERIAL => "serial"
  end.

(** One entry of the list [save_robots] writes (robot_signal.py,
    lines 116-131). *)
Definition robot_to_json (r : RobotConfig) : json :=
  JObj [("id", id r); ("name", name r);
        ("protocol", JStr (protocol_value (protocol r)));
        ("enabled", enabled r); ("url", url r); ("headers", headers r);
        ("mqtt_broker", mqtt_broker r); ("mqtt_port", mqtt_port r);
        ("mqtt_topic", mqtt_topic r); ("mqtt_username", mqtt_username r);
        ("mqtt_password", mqtt_password r); ("serial_port", serial_port r);
        ("serial_baudrate", serial_baudrate r); ("commands", commands r)].

(** The value [save_robots] hands to [json.dump] for the robots of the
    registry, [self.robots.values()], in order; [json.load] of the file
    reads it back. *)
Definition robots_file_data (snapshot : list RobotConfig) : json :=
  JObj [("robots", JArr (map robot_to_json snapshot))].

(** The reply of an endpoint: its JSON body, or the [HTTPException] it
    raises. A Python exception is a [Raise] of the monad. *)
Inductive reply := Reply (body : json) | HttpError (status : Z) (detail : string).

Section Ops.
Variable net : nat -> io_call -> bool.

(** [d.get(k)] on a dict keyed by a JSON value. *)
Definition kget_m {V} (k : json) (d : list (json * V)) : M (option V) :=
  if hashable k then ret (kget k d) else raise TypeError.

(** [_disconnect_robot]. Each [close()] sits in a bare
    [try: ... except: pass], so its outcome is not observable; the
    deletion of the cached handle that follows it is. A [RobotConfig]
    is always truthy. *)
Definition _disconnect_robot (robot_id : json) : M unit :=
  s <- get ;;
  robot <- kget_m robot_id (robots s) ;;
  match robot with
  | None => ret tt
  | Some robot =>
      s <- get ;;
      known <- kin (id robot) (websocket_connections s) ;;
      (if known
       then s <- get ;; put (set_ws (kdel (id robot) (websocket_connections s)) s)
       else ret tt) ;;;
      s <- get ;;
      known <- kin (id robot) (serial_connections s) ;;
      (if known
       then s <- get ;; put (set_serial (kdel (id robot) (serial_connections s)) s)
       else ret tt)
  end.

(** The synchronous body of [remove_robot]. [asyncio.create_task] only
    schedules [_disconnect_robot]: the coroutine starts once the caller
    yields to the event loop, see [delete_robot_request]. *)
Definition remove_robot (robot_id : json) : M unit :=
  s <- get ;;
  present <- kin robot_id (robots s) ;;
  if present then
    s <- get ;;
    put (set_robots (kdel robot_id (robots s)) s) ;;;
    save_robots net
  else ret tt.

(** The [delete_robot] endpoint of main.py. *)
Definition delete_robot (robot_id : string) : M reply :=
  s <- get ;;
  present <- kin (JStr robot_id) (robots s) ;;
  if negb present then ret (HttpError 404 "Robot not found")
  else
    remove_robot (JStr robot_id) ;;;
    ret (Reply (JObj [("message", JStr ("Robot '" ++ robot_id ++ "' deleted")%string)])).

(** One [DELETE /api/robots/{robot_id}] request, then the event loop
    running the task [remove_robot] scheduled; the task exists when the
    robot was registered when the request came in (the [create_task]
    call precedes everything that can raise), and its own outcome is
    only logged. *)
Definition delete_robot_request (robot_id : string) : M reply :=
  fun w =>
    let scheduled :=
      match kget (JStr robot_id) (robots (svc w)) with Some _ => true | None => false end in
    let (r, w1) := delete_robot robot_id w in
    if scheduled then (r, snd (_disconnect_robot (JStr robot_id) w1)) else (r, w1).

(** The signal of the [test_robot] endpoint; [now] is its timestamp. *)
Definition test_signal (now : string) : RobotSignal :=
  mkSignal "test" now (JObj [("message", JStr "Test signal from Nebula Talks")]).

(** The [test_robot] endpoint of main.py. *)
Definition test_robot (now : string) (robot_id : string) : M reply :=
  s <- get ;;
  present <- kin (JStr robot_id) (robots s) ;;
  if negb present then ret (HttpError 404 "Robot not found")
  else
    s <- get ;;
    robot <- klookup (JStr robot_id) (robots s) ;;
    success <- _send_to_robot net robot (test_signal now) ;;
    ret (Reply (JObj [("success", JBool success);
                      ("message", JStr (if success then "Test signal sent"
                                        else "Test signal failed"))])).

End Ops.

Fixpoint keys_distinct (ks : list json) : bool :=
  match ks with
  | [] => true
  | k :: ks' => forallb (fun k' => negb (key_eqb k k')) ks' && keys_distinct ks'
  end.

(** The registry is keyed by each robot's id, with no two equal keys. *)
Definition registry_ok (rs : list (json * RobotConfig)) : Prop :=
  Forall (fun kr => fst kr = id (snd kr) /\ hashable (fst kr) = true) rs /\
  keys_distinct (map fst rs) = true.

Definition delete_reply (rid : string) : reply :=
  Reply (JObj [("message", JStr ("Robot '" ++ rid ++ "' deleted")%string)]).

Definition test_reply (success : bool) : reply :=
  Reply (JObj [("success", JBool success);
               ("message", JStr (if success then "Test signal sent" else "Test signal failed"))]).

(** The robots [load_robots] keeps from the entries of [robots.json]:
    those read before the first entry that cannot be built into a
    [RobotConfig] or stored under its id. *)
Fixpoint loaded_prefix (items : list json) : list RobotConfig :=
  match items with
  | [] => []
  | robot_data :: rest =>
      match parse_robot_config robot_data with
      | Ok r => if hashable (id r) then r :: loaded_prefix rest else []
      | Raise _ => []
      end
  end.

(** [self.robots[robot.id] = robot] for each robot in turn. *)
Definition store_all (rs : list RobotConfig) (d : list (json * RobotConfig)) :=
  fold_left (fun acc r => kset (id r) r acc) rs d.

Definition transport_configured (r : RobotConfig) : bool :=
  match protocol r with
  | HTTP | WEBSOCKET => truthy (url r)
  | MQTT => truthy (mqtt_broker r) && truthy (mqtt_topic r)
  | SERIAL => truthy (serial_port r)
  end.

End Registry.

(* ------------------------------------------------------------------ *)
(** ** Event prompt management (main.py)                               *)
(* ------------------------------------------------------------------ *)

Module Prompts.

(** [PROMPTS_FILE]: [None] while it does not exist, otherwise the dict
    [json.load] reads from it; the endpoints only ever write it through
    [save_prompts], with a dict keyed by prompt id. *)
Definition store := option dict.

Definition load_prompts (f : store) : dict :=
  match f with Some prompts => prompts | None => [] end.

Definition save_prompts (prompts : dict) : store := Some prompts.

(** The reply of an endpoint: its JSON body, the [HTTPException] it
    raises, or an uncaught exception (a [KeyError], [TypeError] or
    [AttributeError] on a prompt that is not a dict), which the server
    answers with status 500. *)
Inductive response :=
| Reply (body : json)
| HttpError (status : Z) (detail : string)
| Crash.

Record EventPromptCreate := mkCreate {
  name : string;
  description : string;
  system_instruction : string;
  voice : string
}.

(** [EventPromptUpdate]; [None] is a field left out of the request. *)
Record EventPromptUpdate := mkUpdate {
  upd_name : option string;
  upd_description : option string;
  upd_system_instruction : option string;
  upd_voice : option string;
  upd_is_active : option bool
}.

(** Strings hold the UTF-8 encoding of the text. [str.replace(c, "-")]
    for an ASCII character [c] is the same replacement on the bytes:
    UTF-8 encodes no other character with an ASCII byte. *)
Definition py_replace_char (old new : ascii) (s : string) : string :=
  string_of_list_ascii
    (map (fun c => if Ascii.eqb c old then new else c) (list_ascii_of_string s)).

(** [prompt.name.lower().replace(" ", "-").replace("/", "-")];
    [py_lower] is [str.lower()], which lowers every cased Unicode
    character, not only ASCII letters. *)
Definition prompt_slug (py_lower : string -> string) (n : string) : string :=
  py_replace_char "/" "-" (py_replace_char " " "-" (py_lower n)).

(** [prompts.pop(k)] of a key that is present. *)
Fixpoint dict_pop (k : string) (d : dict) : dict :=
  match d with
  | [] => []
  | (k', v) :: d' => if String.eqb k k' then d' else (k', v) :: dict_pop k d'
  end.

(** [prompts[prompt_id][key] = value]: [None] when the prompt is not a
    dict (a [TypeError]) or is missing (a [KeyError]). *)
Definition set_field (prompt_id key : string) (value : json) (prompts : dict) : option dict :=
  match dict_get prompt_id prompts with
  | Some (JObj fields) => Some (dict_set prompt_id (JObj (dict_set key value fields)) prompts)
  | _ => None
  end.

Definition obind (o : option dict) (k : dict -> option dict) : option dict :=
  match o with Some d => k d | None => None end.

(** [prompt_data.get("is_active")] for each prompt in file order, up to
    the first truthy one: [Some p] is the prompt found, [Some None]
    none; a prompt that is not a dict has no [.get] ([None]). *)
Fixpoint first_active (prompts : list json) : option (option json) :=
  match prompts with
  | [] => Some None
  | JObj fields :: rest =>
      if truthy (match dict_get "is_active" fields with Some v => v | None => JNull end)
      then Some (Some (JObj fields))
      else first_active rest
  | _ :: _ => None
  end.

(** The prompt [initialize_default_prompt] writes; [instruction] is the
    text of lines 95-111 and [now i] the value of the [i]-th call of
    [datetime.now().isoformat()]. *)
Definition default_prompt (instruction : string) (now : nat -> string) : json :=
  JObj [("id", JStr "nebula-talks"); ("name", JStr "Nebula Talks");
        ("description", JStr "AI Receptionist for Nebula Talks - Visual Intelligence event");
        ("system_instruction", JStr instruction); ("voice", JStr "Orus");
        ("is_active", JBool true);
        ("created_at", JStr (now 0%nat)); ("updated_at", JStr (now 1%nat))].

Definition initialize_default_prompt (instruction : string) (now : nat -> string)
    (f : store) : store :=
  let prompts := load_prompts f in
  match prompts with
  | [] => save_prompts (dict_set "nebula-talks" (default_prompt instruction now) prompts)
  | _ => f
  end.

(** [get_config]; [api_key] is [os.getenv("GEMINI_API_KEY")]. *)
Definition get_config (api_key : option string) (f : store) : response :=
  match api_key with
  | Some k =>
      if String.eqb k EmptyString then HttpError 500 "GEMINI_API_KEY not configured"
      else match first_active (map snd (load_prompts f)) with
           | Some p =>
               Reply (JObj [("apiKey", JStr k);
                            ("eventPrompt", match p with Some p => p | None => JNull end)])
           | None => Crash
           end
  | None => HttpError 500 "GEMINI_API_KEY not configured"
  end.

Definition get_all_prompts (f : store) : response :=
  Reply (JObj [("prompts", JArr (map snd (load_prompts f)))]).

Definition get_prompt (prompt_id : string) (f : store) : response :=
  match dict_get prompt_id (load_prompts f) with
  | Some p => Reply p
  | None => HttpError 404 "Prompt not found"
  end.

Definition new_prompt_data (prompt_id : string) (p : EventPromptCreate)
    (now : nat -> string) : json :=
  JObj [("id", JStr prompt_id); ("name", JStr (name p));
        ("description", JStr (description p));
        ("system_instruction", JStr (system_instruction p));
        ("voice", JStr (voice p)); ("is_active", JBool false);
        ("created_at", JStr (now 0%nat)); ("updated_at", JStr (now 1%nat))].

(** [create_prompt]; the reply and the new file. *)
Definition create_prompt (now : nat -> string) (py_lower : string -> string)
    (p : EventPromptCreate) (f : store) : response * store :=
  let prompts := load_prompts f in
  let prompt_id := prompt_slug py_lower (name p) in
  match dict_get prompt_id prompts with
  | Some _ => (HttpError 400 "Prompt with this name already exists", f)
  | None =>
      let prompt_data := new_prompt_data prompt_id p now in
      (Reply prompt_data, save_prompts (dict_set prompt_id prompt_data prompts))
  end.

Definition opt_set (prompt_id key : string) (v : option json) (prompts : dict) : option dict :=
  match v with None => Some prompts | Some value => set_field prompt_id key value prompts end.

(** [for pid in prompts: prompts[pid]["is_active"] = False]. *)
Fixpoint deactivate_all (pids : list string) (prompts : dict) : option dict :=
  match pids with
  | [] => Some prompts
  | pid :: rest => obind (set_field pid "is_active" (JBool false) prompts) (deactivate_all rest)
  end.

(** Lines 474-489 of [update_prompt]. *)
Definition update_fields (now : string) (prompt_id : string) (p : EventPromptUpdate)
    (prompts : dict) : option dict :=
  obind (opt_set prompt_id "name" (option_map JStr (upd_name p)) prompts) (fun prompts =>
  obind (opt_set prompt_id "description" (option_map JStr (upd_description p)) prompts) (fun prompts =>
  obind (opt_set prompt_id "system_instruction"
           (option_map JStr (upd_system_instruction p)) prompts) (fun prompts =>
  obind (opt_set prompt_id "voice" (option_map JStr (upd_voice p)) prompts) (fun prompts =>
  obind (match upd_is_active p with
         | None => Some prompts
         | Some b =>
             obind (if b then deactivate_all (map fst prompts) prompts else Some prompts)
                   (set_field prompt_id "is_active" (JBool b))
         end) (fun prompts =>
  set_field prompt_id "updated_at" (JStr now) prompts))))).

Definition update_prompt (now : string) (prompt_id : string) (p : EventPromptUpdate)
    (f : store) : response * store :=
  let prompts := load_prompts f in
  match dict_get prompt_id prompts with
  | None => (HttpError 404 "Prompt not found", f)
  | Some _ =>
      match update_fields now prompt_id p prompts with
      | None => (Crash, f)
      | Some prompts' =>
          (match dict_get prompt_id prompts' with Some v => Reply v | None => Crash end,
           save_prompts prompts')
      end
  end.

Definition delete_prompt (prompt_id : string) (f : store) : response * store :=
  let prompts := load_prompts f in
  match dict_get prompt_id prompts with
  | None => (HttpError 404 "Prompt not found", f)
  | Some deleted =>
      if Nat.eqb (List.length prompts) 1
      then (HttpError 400 "Cannot delete the only prompt", f)
      else (Reply (JObj [("message", JStr "Prompt deleted"); ("deleted", deleted)]),
            save_prompts (dict_pop prompt_id prompts))
  end.

(** Lines 522-524 of [activate_prompt]; the [i]-th prompt gets the
    [i]-th timestamp. *)
Fixpoint activate_all (now : nat -> string) (i : nat) (target : string)
    (pids : list string) (prompts : dict) : option dict :=
  match pids with
  | [] => Some prompts
  | pid :: rest =>
      obind (set_field pid "is_active" (JBool (String.eqb pid target)) prompts) (fun prompts =>
      obind (set_field pid "updated_at" (JStr (now i)) prompts)
            (activate_all now (S i) target rest))
  end.

(** [activate_prompt]; [py_str] is [str()] as the f-string applies it
    to the prompt's name. The file is written before the reply is
    built. *)
Definition activate_prompt (now : nat -> string) (py_str : json -> string)
    (prompt_id : string) (f : store) : response * store :=
  let prompts := load_prompts f in
  match dict_get prompt_id prompts with
  | None => (HttpError 404 "Prompt not found", f)
  | Some _ =>
      match activate_all now 0 prompt_id (map fst prompts) prompts with
      | None => (Crash, f)
      | Some prompts' =>
          (match dict_get prompt_id prompts' with
           | Some (JObj fields) =>
               match dict_get "name" fields with
               | Some n =>
                   Reply (JObj [("message", JStr ("Prompt '" ++ py_str n ++ "' activated")%string);
                                ("prompt", JObj fields)])
               | None => Crash
               end
           | _ => Crash
           end,
           save_prompts prompts')
      end
  end.

(** The handler of [GET /api/prompts/{prompt_id}/activate]. *)
Definition get_active_prompt (f : store) : response :=
  match first_active (map snd (load_prompts f)) with
  | Some (Some p) => Reply p
  | Some None => HttpError 404 "No active prompt found"
  | None => Crash
  end.

(** A request to one of the endpoints that write [PROMPTS_FILE],
    with the values it reads from the clock and the string functions it
    applies. *)
Inductive prompt_request :=
| ReqCreate (now : nat -> string) (py_lower : string -> string) (p : EventPromptCreate)
| ReqUpdate (now : string) (prompt_id : string) (p : EventPromptUpdate)
| ReqDelete (prompt_id : string)
| ReqActivate (now : nat -> string) (py_str : json -> string) (prompt_id : string).

Definition handle (r : prompt_request) (f : store) : response * store :=
  match r with
  | ReqCreate now py_lower p => create_prompt now py_lower p f
  | ReqUpdate now prompt_id p => update_prompt now prompt_id p f
  | ReqDelete prompt_id => delete_prompt prompt_id f
  | ReqActivate now py_str prompt_id => activate_prompt now py_str prompt_id f
  end.

(** The file after the server has handled [rs] one after the other. *)
Fixpoint serve (rs : list prompt_request) (f : store) : store :=
  match rs with
  | [] => f
  | r :: rs' => serve rs' (snd (handle r f))
  end.

(** Views of the file used to state properties: whether the prompt
    stored under [pid] is a dict, and the value of one of its fields. *)
Definition is_obj_at (pid : string) (prompts : dict) : bool :=
  match dict_get pid prompts with Some (JObj _) => true | _ => false end.

Definition field_of (pid key : string) (prompts : dict) : option json :=
  match dict_get pid prompts with Some (JObj fields) => dict_get key fields | _ => None end.

End Prompts.

(* ------------------------------------------------------------------ *)
(** ** myCobot endpoints and disconnection                             *)
(* ------------------------------------------------------------------ *)

Module MyCobotOps.
Import MyCobot.

(** [MyCobotClient.disconnect]; [close_ok] says whether
    [self.websocket.close()] returned. The first component says whether
    it raised, in which case the client is left as it was. *)
Definition disconnect (c : client) (close_ok : bool) : bool * client :=
  match websocket c with
  | None => (false, c)
  | Some _ => if close_ok then (false, mkClient false (websocket c) (written c)) else (true, c)
  end.

(** Lines 34-40 of [MyCobotClient.connect]: [websockets.connect]
    returned the connection [h]. [connect] runs in a [while True] loop
    started at startup, which [disconnect] does not stop: once
    [_keep_alive] ends, the loop connects again. *)
Definition connect_opened (c : client) (h : nat) : client :=
  mkClient true (Some h) (written c).

Definition MYCOBOT_GESTURES : dict :=
  [("wave", JStr "Wave hand gesture"); ("thumbs_up", JStr "Thumbs up gesture");
   ("point", JStr "Point forward gesture"); ("greet", JStr "Greeting gesture (bow + wave)");
   ("celebrate", JStr "Celebration gesture"); ("home", JStr "Return to home position")].

Fixpoint join (sep : string) (l : list string) : string :=
  match l with
  | [] => EmptyString
  | [x] => x
  | x :: l' => (x ++ sep ++ join sep l')%string
  end.

(** The [trigger_mycobot_gesture] endpoint of main.py, through
    [send_to_mycobot(gesture)] (no data). *)
Definition trigger_mycobot_gesture (c : client) (gesture : string) (now : string)
    (send_ok : bool) : Prompts.response * client :=
  match dict_get gesture MYCOBOT_GESTURES with
  | None =>
      (Prompts.HttpError 400
         ("Unknown gesture. Available: " ++ join ", " (map fst MYCOBOT_GESTURES))%string, c)
  | Some message =>
      let (success, c') := send_signal c gesture JNull now send_ok in
      (Prompts.Reply (JObj [("success", JBool success); ("gesture", JStr gesture);
                            ("message", message)]), c')
  end.

Definition gesture_reply (success : bool) (gesture : string) (m : json) : Prompts.response :=
  Prompts.Reply (JObj [("success", JBool success); ("gesture", JStr gesture); ("message", m)]).

End MyCobotOps.

Module PromptFixtures.
Import Prompts.

(** A prompt file with two prompts, the first one active. *)
Definition two_prompts : store :=
  Some [("nebula-talks", JObj [("id", JStr "nebula-talks"); ("name", JStr "Nebula Talks");
                               ("voice", JStr "Orus"); ("is_active", JBool true);
                               ("updated_at", JStr "2026-10-01T09:00:00")]);
        ("demo-day", JObj [("id", JStr "demo-day"); ("name", JStr "Demo Day");
                           ("voice", JStr "Puck"); ("is_active", JBool false);
                           ("updated_at", JStr "2026-10-02T09:00:00")])].

(** [datetime.now().isoformat()], frozen. *)
Definition frozen_now (_ : nat) : string := "2026-10-17T12:00:00".

(** [str()] of a JSON string. *)
Definition str_of (v : json) : string := match v with JStr s => s | _ => "?" end.

(** [str.lower()] on text whose characters are all ASCII. *)
Definition lower_char (c : ascii) : ascii :=
  let n := nat_of_ascii c in
  if (65 <=? n)%nat && (n <=? 90)%nat then ascii_of_nat (n + 32) else c.

Definition ascii_lower (s : string) : string :=
  string_of_list_ascii (map lower_char (list_ascii_of_string s)).

Definition team_sync : EventPromptCreate :=
  mkCreate "Team Sync" "Weekly sync" "Be brief." "Orus".

Definition team_sync_slash : EventPromptCreate :=
  mkCreate "team/sync" "Another sync" "Be very brief." "Puck".

End PromptFixtures.

Module RegistryFixtures.
Import Dispatch.

(** A serial robot on [/dev/ttyUSB0]. *)
Definition serial_robot : RobotConfig :=
  mkRobot (JStr "s1") (JStr "Serial robot") SERIAL (JBool true) JNull (JObj [])
    JNull (JNum 1883) JNull JNull JNull (JStr "/dev/ttyUSB0") (JNum 115200) (JObj []).

(** An HTTP robot without a [url]. *)
Definition http_no_url : RobotConfig :=
  mkRobot (JStr "r9") (JStr "No URL") HTTP (JBool true) JNull (JObj [])
    JNull (JNum 1883) JNull JNull JNull JNull (JNum 9600) (JObj []).

(** The WebSocket robot registered, with the connection opened at
    tick 5 still cached. *)
Definition ws_cached_world : world :=
  mkWorld (mkService [(JStr "w1", Fixtures.ws_robot)] [(JStr "w1", 5%nat)] None []) 6 [].

End RegistryFixtures.

(* ================================================================== *)
(** * Properties                                                       *)
(* ================================================================== *)

Module PresenceFacts.
Import Presence.

Lemma count_ev_app e l1 l2 : count_ev e (l1 ++ l2) = count_ev e l1 + count_ev e l2.
Proof. unfold count_ev. rewrite filter_app, length_app. reflexivity. Qed.

Lemma count_left_app l1 l2 : count_left (l1 ++ l2) = count_left l1 + count_left l2.
Proof. unfold count_left. rewrite filter_app, length_app. reflexivity. Qed.

(** C1 (as the code does it): one call of [detect_person] emits at most
    two events, never [ENTERED] together with a [LEFT]-type event, and
    emits two exactly when a present user who has spoken leaves, namely
    [LEFT_AFTER_SPEECH] followed by [LEFT]. *)
Theorem detect_person_events_per_call (s : state) (person_found : bool) :
  let es := fst (detect_person s person_found) in
  List.length es <= 2 /\
  ~ (In ENTERED es /\ exists e, In e es /\ is_left e = true) /\
  (List.length es = 2 <->
     user_was_present s && user_spoken s && negb person_found = true) /\
  (List.length es = 2 -> es = [LEFT_AFTER_SPEECH; LEFT]).
Proof.
  destruct s as [[|] [|]], person_found; simpl;
    repeat split; intros; try lia; try discriminate; auto.
  all: intros [H1 (e & H2 & H3)]; destruct e; simpl in *; intuition discriminate.
Qed.

(** C1 fails as stated: a present user who has spoken and leaves gets
    two events from one call. *)
Lemma detect_person_two_events :
  fst (detect_person (mkState true true) false) = [LEFT_AFTER_SPEECH; LEFT] /\
  1 < List.length (fst (detect_person (mkState true true) false)).
Proof. simpl. split; [reflexivity | lia]. Qed.




(** C8 fails as stated: [mark_user_spoken] while nobody is present sets
    the spoken flag. *)
Lemma mark_spoken_while_absent :
  user_was_present (mark_user_spoken initial) = false /\
  user_spoken (mark_user_spoken initial) = true.
Proof. split; reflexivity. Qed.

(** C8 (as the code does it): [mark_user_spoken] sets the spoken flag
    whatever the present flag is, leaving the present flag unchanged;
    once set, the flag stays set through every call of [detect_person]
    that does not emit [LEFT_AFTER_SPEECH], and is cleared by the one
    that does. *)
Theorem mark_spoken_unconditional (s : state) (person_found : bool) :
  user_spoken (mark_user_spoken s) = true /\
  user_was_present (mark_user_spoken s) = user_was_present s /\
  (user_spoken s = true ->
   user_spoken (snd (detect_person s person_found)) =
     negb (existsb (event_eqb LEFT_AFTER_SPEECH) (fst (detect_person s person_found)))).
Proof.
  destruct s as [[|] [|]], person_found; simpl; repeat split; intros;
    try discriminate; reflexivity.
Qed.

Lemma mark_spoken_unconditional_witness :
  user_spoken (mkState false true) = true /\
  user_spoken (snd (detect_person (mkState false true) true)) = true.
Proof.
  split; [reflexivity |].
  pose proof (mark_spoken_unconditional (mkState false true) true) as (_ & _ & H).
  rewrite (H eq_refl). reflexivity.
Defined.

End PresenceFacts.

Module MyCobotFacts.
Import MyCobot.

(** C6: [MyCobotClient.send_signal] returns false without writing or
    changing anything while the client is not connected; when the write
    raises it returns false and marks the client disconnected; when the
    write succeeds it returns true. *)
Theorem send_signal_contract (c : client) (signal_type : string) (data : json)
    (now : string) (send_ok : bool) :
  (is_connected c = false ->
   send_signal c signal_type data now send_ok = (false, c)) /\
  (is_connected c = true -> send_ok = false ->
   fst (send_signal c signal_type data now send_ok) = false /\
   connected (snd (send_signal c signal_type data now send_ok)) = false /\
   written (snd (send_signal c signal_type data now send_ok)) = written c) /\
  (is_connected c = true -> send_ok = true ->
   fst (send_signal c signal_type data now send_ok) = true).
Proof.
  destruct c as [[|] [h|] w], send_ok; unfold is_connected, send_signal; simpl;
    repeat split; intros; try discriminate; reflexivity.
Qed.

End MyCobotFacts.

Module DispatchFacts.
Import Dispatch Observe Fixtures.

Create HintDb io_only.

Lemma io_only_ret {A} (a : A) : io_only (ret a).
Proof. intros w. exists []. rewrite app_nil_r. auto. Qed.

Lemma io_only_raise {A} e : io_only (@raise A e).
Proof. intros w. exists []. rewrite app_nil_r. auto. Qed.

Lemma io_only_get : io_only get.
Proof. intros w. exists []. rewrite app_nil_r. auto. Qed.

Lemma io_only_put s : io_only (put s).
Proof. intros w. exists []. rewrite app_nil_r. auto. Qed.

Lemma io_only_lift {A} (r : res A) : io_only (lift r).
Proof. destruct r; [apply io_only_ret | apply io_only_raise]. Qed.

Lemma io_only_io net c : io_only (io net c).
Proof. intros w. exists [EvIo (clock w) c (net (clock w) c)]. auto. Qed.

Lemma io_only_alloc c : io_only (alloc c).
Proof. intros w. exists [EvIo (clock w) c true]. auto. Qed.

Lemma io_only_bind {A B} (m : M A) (k : A -> M B) :
  io_only m -> (forall a, io_only (k a)) -> io_only (bind m k).
Proof.
  intros Hm Hk w. unfold bind. destruct (Hm w) as (l1 & E1 & F1).
  destruct (m w) as [[a | e] w'] eqn:Em; simpl in *.
  - destruct (Hk a w') as (l2 & E2 & F2). exists (l1 ++ l2).
    rewrite E2, E1, app_assoc, filter_app, F1, F2. auto.
  - exists l1. auto.
Qed.

Lemma io_only_catch {A} (m : M A) (h : exn -> M A) :
  io_only m -> (forall e, io_only (h e)) -> io_only (catch m h).
Proof.
  intros Hm Hh w. unfold catch. destruct (Hm w) as (l1 & E1 & F1).
  destruct (m w) as [[a | e] w'] eqn:Em; simpl in *.
  - exists l1. auto.
  - destruct (Hh e w') as (l2 & E2 & F2). exists (l1 ++ l2).
    rewrite E2, E1, app_assoc, filter_app, F1, F2. auto.
Qed.

Lemma io_only_kin {V} k (d : list (json * V)) : io_only (kin k d).
Proof. unfold kin. destruct (hashable k); [apply io_only_ret | apply io_only_raise]. Qed.

Lemma io_only_klookup {V} k (d : list (json * V)) : io_only (klookup k d).
Proof.
  unfold klookup. destruct (hashable k); [destruct (kget k d)|];
    auto using io_only_ret, io_only_raise.
Qed.

#[local] Hint Resolve io_only_ret io_only_raise io_only_get io_only_put io_only_lift
  io_only_io io_only_alloc io_only_kin io_only_klookup : io_only.

Ltac io_only_step :=
  match goal with
  | |- io_only (bind _ _) => apply io_only_bind; [| intro]
  | |- io_only (catch _ _) => apply io_only_catch; [| intro]
  | |- io_only (if ?b then _ else _) => destruct b
  | |- io_only (match ?x with _ => _ end) => destruct x
  | |- _ => solve [auto with io_only]
  end.

Lemma io_only_send_by_protocol net r d : io_only (send_by_protocol net r d).
Proof.
  unfold send_by_protocol, _send_http, _send_websocket, _send_mqtt, _send_serial.
  destruct (protocol r); repeat io_only_step.
Qed.

Lemma catch_ret_ok {A} (m : M A) (x : A) w :
  exists a, fst (catch m (fun _ => ret x) w) = Ok a.
Proof. unfold catch, ret. destruct (m w) as [[a | e] w']; simpl; eauto. Qed.

Lemma send_to_robot_spec net r sig w :
  exists b l,
    fst (_send_to_robot net r sig w) = Ok b /\
    trace (snd (_send_to_robot net r sig w)) =
      trace w ++ [EvAttempt (id r)] ++ l ++ [EvResult (id r) b] /\
    filter is_marker l = [].
Proof.
  unfold _send_to_robot.
  set (inner := catch _ _).
  assert (Hio : io_only inner).
  { apply io_only_catch; [apply io_only_bind; [apply io_only_lift |] | ];
      intros; [apply io_only_send_by_protocol | apply io_only_ret]. }
  set (w1 := mkWorld (svc w) (clock w) (trace w ++ [EvAttempt (id r)])).
  destruct (catch_ret_ok (signal_data <- lift (signal_payload r sig) ;;
                          send_by_protocol net r signal_data) false w1) as [b Hb].
  fold inner in Hb.
  destruct (Hio w1) as (l & El & Fl).
  assert (Hinner : inner w1 = (Ok b, snd (inner w1))).
  { destruct (inner w1) as [[b' | e] w2]; simpl in Hb; inversion Hb; auto. }
  cbv [bind emit ret]. fold w1. rewrite Hinner. simpl.
  exists b, l. rewrite El. unfold w1; simpl. repeat split; auto.
  rewrite <- !app_assoc. reflexivity.
Qed.

Lemma fst_ok {A} (m : M A) w a : fst (m w) = Ok a -> m w = (Ok a, snd (m w)).
Proof. destruct (m w) as [r w']; simpl; intros ->; reflexivity. Qed.

Lemma gather_cons_ok (t : M bool) ts w b w1 :
  t w = (Ok b, w1) ->
  gather (t :: ts) w =
    match gather ts w1 with
    | (Ok rs, w2) => (Ok (Some b :: rs), w2)
    | (Raise e, w2) => (Raise e, w2)
    end.
Proof. intros H. simpl. unfold bind, catch, ret. rewrite H. reflexivity. Qed.

Lemma gather_spec net sig rs : forall w,
  exists bs l,
    fst (gather (map (fun r => _send_to_robot net r sig) rs) w) = Ok (map Some bs) /\
    List.length bs = List.length rs /\
    trace (snd (gather (map (fun r => _send_to_robot net r sig) rs) w)) = trace w ++ l /\
    filter is_marker l = attempt_markers rs bs.
Proof.
  induction rs as [| r rs IH]; intros w.
  - exists [], []. simpl. rewrite app_nil_r. auto.
  - destruct (send_to_robot_spec net r sig w) as (b & l1 & Hb & Ht & Hf).
    pose proof (fst_ok _ _ _ Hb) as E.
    set (w1 := snd (_send_to_robot net r sig w)) in *.
    destruct (IH w1) as (bs & l2 & Hbs & Hlen & Ht2 & Hf2).
    pose proof (fst_ok _ _ _ Hbs) as E2.
    exists (b :: bs), ([EvAttempt (id r)] ++ l1 ++ [EvResult (id r) b] ++ l2).
    simpl map. rewrite (gather_cons_ok _ _ _ _ _ E), E2. simpl.
    rewrite Ht2, Ht.
    repeat split; auto.
    + rewrite <- !app_assoc. reflexivity.
    + simpl. rewrite filter_app, Hf. simpl. rewrite Hf2. reflexivity.
Qed.

Lemma count_true_map_some bs : count_true (map Some bs) = count_b bs.
Proof.
  unfold count_true, count_b. induction bs as [| [|] bs IH]; simpl; auto.
Qed.

Lemma length_attempt_markers rs bs :
  List.length bs = List.length rs ->
  filter (fun e => match e with EvAttempt _ => true | _ => false end)
    (attempt_markers rs bs) = map (fun r => EvAttempt (id r)) rs.
Proof.
  revert bs; induction rs as [| r rs IH]; intros [| b bs] H; simpl in *;
    try discriminate; auto.
  rewrite IH; auto.
Qed.

(** C3: a fan-out [send_signal] (no target id) never raises; it makes
    exactly one [_send_to_robot] call per enabled robot of the registry,
    whatever the transports do; each call ends with the boolean it
    returned (a failure is [false]); and the success count it logs is
    the number of [true] results out of the number of targets. *)
Theorem send_signal_fanout net sig w :
  let ts := enabled_robots (svc w) in
  fst (send_signal net sig None w) = Ok tt /\
  exists bs l,
    List.length bs = List.length ts /\
    trace (snd (send_signal net sig None w)) = trace w ++ l /\
    filter is_marker l =
      attempt_markers ts bs ++
      match ts with [] => [] | _ => [EvSummary (count_b bs) (List.length ts)] end.
Proof.
  simpl. unfold send_signal. cbv [bind get]. simpl.
  destruct (enabled_robots (svc w)) as [| r0 rs0] eqn:Ets.
  - simpl. split; auto. exists [], []. rewrite app_nil_r. auto.
  - set (ts := r0 :: rs0).
    destruct (gather_spec net sig ts w) as (bs & l & Hbs & Hlen & Ht & Hf).
    pose proof (fst_ok _ _ _ Hbs) as E.
    change (match ts with [] => ret tt | _ :: _ => _ end) with
      (results <- gather (map (fun r => _send_to_robot net r sig) ts) ;;
       emit (EvSummary (count_true results) (List.length ts))).
    set (g := gather (map (fun r => _send_to_robot net r sig) ts)) in *.
    cbv [bind emit]. rewrite E. simpl. split; auto.
    exists bs, (l ++ [EvSummary (count_b bs) (List.length ts)]).
    rewrite count_true_map_some, Ht, app_assoc, filter_app, Hf. auto.
Qed.

(** C4 fails as stated: naming a disabled robot does not raise; the
    signal is delivered to it. *)
Lemma send_signal_disabled_target :
  send_signal all_ok wave (Some "r1") one_robot_world =
  (Ok tt, mkWorld (svc one_robot_world) 1
     [EvAttempt (JStr "r1");
      EvIo 0 (IoHttpPost (JStr "http://r1.local/signal") (JObj []) (to_dict wave)) true;
      EvResult (JStr "r1") true;
      EvSummary 1 1]).
Proof. vm_compute. reflexivity. Qed.

(** C4 (as the code does it): an empty target id is treated like no id
    (fan-out); a non-empty id absent from the registry makes the lookup
    raise [KeyError], which reaches the caller with nothing sent; a
    present id gets exactly one delivery attempt to that registry entry,
    whatever its [enabled] flag, and the call then completes. *)
Theorem send_signal_named_target net sig w rid :
  send_signal net sig (Some "") w = send_signal net sig None w /\
  (rid <> "" -> kget (JStr rid) (robots (svc w)) = None ->
   send_signal net sig (Some rid) w = (Raise KeyError, w)) /\
  (rid <> "" -> forall r, kget (JStr rid) (robots (svc w)) = Some r ->
   fst (send_signal net sig (Some rid) w) = Ok tt /\
   exists b l,
     trace (snd (send_signal net sig (Some rid) w)) = trace w ++ l /\
     filter is_marker l = [EvAttempt (id r); EvResult (id r) b; EvSummary (count_b [b]) 1]).
Proof.
  split; [reflexivity |]. split.
  - intros Hne Hget. unfold send_signal. cbv [bind get klookup].
    rewrite <- String.eqb_neq in Hne. rewrite Hne. simpl. rewrite Hget. reflexivity.
  - intros Hne r Hget. unfold send_signal. cbv [bind get klookup].
    rewrite <- String.eqb_neq in Hne. rewrite Hne. simpl. rewrite Hget.
    destruct (gather_spec net sig [r] w) as (bs & l & Hbs & Hlen & Ht & Hf).
    pose proof (fst_ok _ _ _ Hbs) as E.
    cbv [ret].
    set (g := gather (map (fun r2 => _send_to_robot net r2 sig) [r])) in *.
    rewrite E. cbv [emit]. simpl. split; auto.
    destruct bs as [| b [| b' bs]]; simpl in Hlen; try discriminate.
    exists b, (l ++ [EvSummary (count_true (map Some [b])) 1]).
    rewrite Ht, app_assoc, filter_app, Hf, count_true_map_some. auto.
Qed.

Lemma send_signal_named_target_witness :
  kget (JStr "r1") (robots (svc one_robot_world)) = Some disabled_http /\
  fst (send_signal all_ok wave (Some "r1") one_robot_world) = Ok tt.
Proof.
  split; [reflexivity |].
  destruct (send_signal_named_target all_ok wave one_robot_world "r1") as (_ & _ & H).
  exact (proj1 (H ltac:(discriminate) disabled_http eq_refl)).
Defined.


Lemma dict_get_set k k' v d :
  dict_get k (dict_set k' v d) = if String.eqb k k' then Some v else dict_get k d.
Proof.
  induction d as [| [k0 v0] d IH]; simpl.
  - reflexivity.
  - destruct (String.eqb k' k0) eqn:E1.
    + apply String.eqb_eq in E1. subst k0. simpl. destruct (String.eqb k k'); reflexivity.
    + simpl. rewrite IH. destruct (String.eqb k k0) eqn:E2, (String.eqb k k') eqn:E3; auto.
      apply String.eqb_eq in E2, E3. subst. rewrite String.eqb_refl in E1. discriminate.
Qed.

Lemma dict_merge_cons a k v b : dict_merge a ((k, v) :: b) = dict_merge (dict_set k v a) b.
Proof. reflexivity. Qed.

Lemma dict_get_merge_override k b : forall a,
  NoDup (map fst b) ->
  dict_get k (dict_merge a b) =
    match dict_get k b with Some v => Some v | None => dict_get k a end.
Proof.
  induction b as [| [k' v'] b IH]; intros a Hnd.
  - reflexivity.
  - simpl in Hnd. inversion Hnd as [| ? ? Hnotin Hnd']; subst.
    rewrite dict_merge_cons, IH by assumption.
    rewrite dict_get_set. simpl.
    destruct (String.eqb k k') eqn:E.
    + apply String.eqb_eq in E. subst k'.
      assert (dict_get k b = None) as ->.
      { clear -Hnotin. induction b as [| [k0 v0] b IHb]; simpl in *; auto.
        destruct (String.eqb k k0) eqn:E0.
        - apply String.eqb_eq in E0. subst. tauto.
        - apply IHb. tauto. }
      reflexivity.
    + reflexivity.
Qed.

(** C7: when the robot's commands hold a mapping for the signal type,
    the payload is the signal's serialized fields with that mapping
    written over them at the top level: each override key has the
    override's value, every other key keeps its serialized value, and
    it is this payload that [_send_to_robot] hands to the connector;
    the [wave_hand]/[speed] example of the spec holds. *)
Theorem command_override_payload :
  (forall r sig cmds ov,
     commands r = JObj cmds ->
     dict_get (signal_type sig) cmds = Some (JObj ov) ->
     NoDup (map fst ov) ->
     signal_payload r sig = Ok (dict_merge (to_dict sig) ov) /\
     (forall k v, dict_get k ov = Some v ->
        dict_get k (dict_merge (to_dict sig) ov) = Some v) /\
     (forall k, dict_get k ov = None ->
        dict_get k (dict_merge (to_dict sig) ov) = dict_get k (to_dict sig)) /\
     (forall net w,
        _send_to_robot net r sig w =
        (emit (EvAttempt (id r)) ;;;
         ok <- catch (send_by_protocol net r (dict_merge (to_dict sig) ov))
                     (fun _ => ret false) ;;
         emit (EvResult (id r) ok) ;;;
         ret ok) w)) /\
  (forall r ts,
     commands r = JObj [("wave_hand", JObj [("speed", JStr "fast")])] ->
     signal_payload r (mkSignal "wave_hand" ts (JObj [])) =
     Ok [("signalType", JStr "wave_hand"); ("timestamp", JStr ts);
         ("data", JObj []); ("speed", JStr "fast")]).
Proof.
  split.
  - intros r sig cmds ov Hc Hg Hnd.
    assert (Hp : signal_payload r sig = Ok (dict_merge (to_dict sig) ov)).
    { unfold signal_payload. rewrite Hc, Hg.
      destruct ov as [| kv ov]; reflexivity. }
    split; [exact Hp |]. split; [| split].
    + intros k v Hk. rewrite dict_get_merge_override by assumption. rewrite Hk. reflexivity.
    + intros k Hk. rewrite dict_get_merge_override by assumption. rewrite Hk. reflexivity.
    + intros net w. unfold _send_to_robot. rewrite Hp. reflexivity.
  - intros r ts Hc. unfold signal_payload. rewrite Hc. reflexivity.
Qed.

Lemma command_override_payload_witness :
  signal_payload wave_robot wave =
  Ok (dict_merge (to_dict wave) [("speed", JStr "fast")]).
Proof.
  destruct command_override_payload as [H _].
  refine (proj1 (H wave_robot wave _ [("speed", JStr "fast")] eq_refl eq_refl _)).
  simpl. constructor; [simpl; tauto | constructor].
Defined.


Lemma mqtt_calls_app l1 l2 : mqtt_calls (l1 ++ l2) = mqtt_calls l1 ++ mqtt_calls l2.
Proof.
  induction l1 as [| e l1 IH]; simpl; auto.
  destruct e; auto. destruct (is_mqtt_call c); simpl; rewrite IH; auto.
Qed.

Ltac eval_m :=
  cbv [bind catch ret raise get put io alloc emit lift kin klookup
       set_ws set_serial set_mqtt set_robots] in *;
  repeat (simpl in *;
    match goal with
    | |- context [if ?b then _ else _] => destruct b eqn:?
    | |- context [match ?x with _ => _ end] =>
        match x with
        | context [match _ with _ => _ end] => fail 1
        | _ => destruct x eqn:?
        end
    end);
  simpl in *; rewrite ?mqtt_calls_app; simpl.

Ltac simplify_opt :=
  repeat match goal with
  | H : Some _ = Some _ |- _ => injection H as H; subst
  | H : None = Some _ |- _ => discriminate H
  | H : Some _ = None |- _ => discriminate H
  | H1 : ?x = Some _, H2 : ?x = Some _ |- _ => rewrite H1 in H2
  | H1 : ?x = Some _, H2 : ?x = None |- _ => rewrite H1 in H2; discriminate H2
  end.

Lemma other_protocols_keep_mqtt net r d w :
  protocol r <> MQTT ->
  mqtt_client (svc (snd (send_by_protocol net r d w))) = mqtt_client (svc w) /\
  mqtt_calls (trace (snd (send_by_protocol net r d w))) = mqtt_calls (trace w).
Proof.
  intros Hp. unfold send_by_protocol.
  destruct (protocol r); [| | congruence |];
    unfold _send_http, _send_websocket, _send_serial; eval_m;
    rewrite ?app_nil_r; auto.
Qed.

Lemma send_mqtt_existing net r d w c :
  mqtt_client (svc w) = Some c ->
  mqtt_client (svc (snd (_send_mqtt net r d w))) = Some c /\
  exists pubs,
    mqtt_calls (trace (snd (_send_mqtt net r d w))) = mqtt_calls (trace w) ++ pubs /\
    forallb (is_publish_on c) pubs = true.
Proof.
  intros Hc. unfold _send_mqtt. eval_m; simplify_opt;
    split; auto; eexists; split;
    try first [reflexivity | symmetry; apply app_nil_r]; simpl; rewrite ?Nat.eqb_refl; auto.
Qed.

Ltac rewrite_known :=
  repeat match goal with
  | H : ?x = true |- context [?x] => rewrite H
  | H : ?x = false |- context [?x] => rewrite H
  end.

Ltac setup_prefix k :=
  exists k; eexists; split; [lia |]; split;
  [ unfold mqtt_setup; rewrite_known; simpl; rewrite <- ?app_assoc; simpl;
    first [reflexivity | rewrite app_nil_r; reflexivity]
  | simpl; rewrite ?Nat.eqb_refl; reflexivity ].

Lemma send_mqtt_create net r d w :
  mqtt_client (svc w) = None ->
  truthy (mqtt_broker r) && truthy (mqtt_topic r) = true ->
  mqtt_client (svc (snd (_send_mqtt net r d w))) = Some (clock w) /\
  exists k pubs, 1 <= k /\
    mqtt_calls (trace (snd (_send_mqtt net r d w))) =
      mqtt_calls (trace w) ++ firstn k (mqtt_setup (clock w) r) ++ pubs /\
    forallb (is_publish_on (clock w)) pubs = true.
Proof.
  intros Hc Hbt. unfold _send_mqtt.
  assert (Hb : negb (truthy (mqtt_broker r)) || negb (truthy (mqtt_topic r)) = false).
  { destruct (truthy (mqtt_broker r)), (truthy (mqtt_topic r)); simpl in *; congruence. }
  eval_m; simplify_opt; try congruence; split; auto;
    first [ solve [setup_prefix 1] | solve [setup_prefix 2] | solve [setup_prefix 3]
          | solve [setup_prefix 4] | solve [setup_prefix 5] ].
Qed.

Lemma send_to_robot_shape net r sig w :
  let w1 := mkWorld (svc w) (clock w) (trace w ++ [EvAttempt (id r)]) in
  let inner := (signal_data <- lift (signal_payload r sig) ;;
                send_by_protocol net r signal_data) in
  svc (snd (_send_to_robot net r sig w)) = svc (snd (inner w1)) /\
  exists b, trace (snd (_send_to_robot net r sig w)) =
            trace (snd (inner w1)) ++ [EvResult (id r) b].
Proof.
  intros w1 inner. unfold _send_to_robot. fold inner.
  cbv [bind emit catch ret]. fold w1.
  destruct (inner w1) as [[b | e] w2]; simpl; eauto.
Qed.

(** What one delivery does to the shared MQTT client. *)
Lemma send_to_robot_mqtt net r sig w :
  (reaches_mqtt r sig = false ->
   mqtt_client (svc (snd (_send_to_robot net r sig w))) = mqtt_client (svc w) /\
   mqtt_calls (trace (snd (_send_to_robot net r sig w))) = mqtt_calls (trace w)) /\
  (forall c, mqtt_client (svc w) = Some c ->
   mqtt_client (svc (snd (_send_to_robot net r sig w))) = Some c /\
   exists pubs,
     mqtt_calls (trace (snd (_send_to_robot net r sig w))) = mqtt_calls (trace w) ++ pubs /\
     forallb (is_publish_on c) pubs = true) /\
  (reaches_mqtt r sig = true -> mqtt_client (svc w) = None ->
   exists c k pubs,
     mqtt_client (svc (snd (_send_to_robot net r sig w))) = Some c /\ 1 <= k /\
     mqtt_calls (trace (snd (_send_to_robot net r sig w))) =
       mqtt_calls (trace w) ++ firstn k (mqtt_setup c r) ++ pubs /\
     forallb (is_publish_on c) pubs = true).
Proof.
  destruct (send_to_robot_shape net r sig w) as (Hs & b & Ht).
  rewrite Hs, Ht. clear Hs Ht.
  set (w1 := mkWorld (svc w) (clock w) (trace w ++ [EvAttempt (id r)])).
  assert (Hw1 : mqtt_calls (trace w1) = mqtt_calls (trace w)).
  { unfold w1. simpl. rewrite mqtt_calls_app. simpl. apply app_nil_r. }
  unfold reaches_mqtt.
  destruct (signal_payload r sig) as [d | e] eqn:Hpay.
  2:{ cbv [bind lift raise]. simpl. rewrite mqtt_calls_app, app_nil_r.
      destruct (protocol r); repeat split; intros; try discriminate;
        rewrite ?mqtt_calls_app; simpl; rewrite ?app_nil_r; auto;
        exists []; rewrite app_nil_r; auto. }
  cbv [bind lift ret]. rewrite mqtt_calls_app. simpl. rewrite app_nil_r.
  destruct (protocol r) eqn:Hp.
  all: try (assert (Hother : protocol r <> MQTT) by congruence;
            destruct (other_protocols_keep_mqtt net r d w1 Hother) as [Hm Hc];
            rewrite Hm, Hc, Hw1; simpl; repeat split; intros; try discriminate;
            try assumption; exists []; rewrite app_nil_r; auto; fail).
  unfold send_by_protocol. rewrite Hp. split; [| split].
  - intros Hreach. unfold _send_mqtt.
    replace (negb (truthy (mqtt_broker r)) || negb (truthy (mqtt_topic r))) with true
      by (destruct (truthy (mqtt_broker r)), (truthy (mqtt_topic r)); simpl in *; congruence).
    cbv [ret]. simpl. split; auto.
  - intros c Hc. destruct (send_mqtt_existing net r d w1 c Hc) as [H1 (pubs & H2 & H3)].
    split; auto. exists pubs. rewrite H2, Hw1. auto.
  - intros Hreach Hc.
    destruct (send_mqtt_create net r d w1 Hc Hreach) as [H1 (k & pubs & Hk & H2 & H3)].
    exists (clock w1), k, pubs. rewrite H1, H2, Hw1. auto.
Qed.

Lemma deliver_all_cons net r sig jobs w :
  deliver_all net ((r, sig) :: jobs) w =
  deliver_all net jobs (snd (_send_to_robot net r sig w)).
Proof.
  destruct (send_to_robot_spec net r sig w) as (b & l & Hb & _).
  pose proof (fst_ok _ _ _ Hb) as E.
  simpl. unfold bind. rewrite E. reflexivity.
Qed.

Lemma deliver_all_existing net jobs : forall w c,
  mqtt_client (svc w) = Some c ->
  mqtt_client (svc (snd (deliver_all net jobs w))) = Some c /\
  exists pubs,
    mqtt_calls (trace (snd (deliver_all net jobs w))) = mqtt_calls (trace w) ++ pubs /\
    forallb (is_publish_on c) pubs = true.
Proof.
  induction jobs as [| [r sig] jobs IH]; intros w c Hc.
  - split; auto. exists []. rewrite app_nil_r. auto.
  - rewrite deliver_all_cons.
    destruct (send_to_robot_mqtt net r sig w) as (_ & Hsome & _).
    destruct (Hsome c Hc) as [H1 (p1 & H2 & H3)].
    destruct (IH _ c H1) as [H4 (p2 & H5 & H6)].
    split; auto. exists (p1 ++ p2). rewrite H5, H2, app_assoc, forallb_app, H3, H6. auto.
Qed.

(** C10: the shared MQTT client.  Over any sequence of deliveries that
    starts without a client, the only MQTT calls made are one prefix of
    the set-up ([MQTTClient()], [username_pw_set] when credentials are
    given, [connect], [loop_start]) built from the first robot whose
    delivery reaches [_send_mqtt], with that robot's broker, port and
    credentials, followed by publishes on that one client; once a client
    exists, every later delivery, whatever its robot, its broker or its
    credentials and whether earlier calls failed, keeps that client and
    only publishes on it. *)
Theorem mqtt_client_shared net jobs w :
  (mqtt_client (svc w) = None ->
   match first_mqtt jobs with
   | None =>
       mqtt_client (svc (snd (deliver_all net jobs w))) = None /\
       mqtt_calls (trace (snd (deliver_all net jobs w))) = mqtt_calls (trace w)
   | Some r =>
       exists c k pubs,
         mqtt_client (svc (snd (deliver_all net jobs w))) = Some c /\ 1 <= k /\
         mqtt_calls (trace (snd (deliver_all net jobs w))) =
           mqtt_calls (trace w) ++ firstn k (mqtt_setup c r) ++ pubs /\
         forallb (is_publish_on c) pubs = true
   end) /\
  (forall c, mqtt_client (svc w) = Some c ->
   mqtt_client (svc (snd (deliver_all net jobs w))) = Some c /\
   exists pubs,
     mqtt_calls (trace (snd (deliver_all net jobs w))) = mqtt_calls (trace w) ++ pubs /\
     forallb (is_publish_on c) pubs = true).
Proof.
  split; [| apply deliver_all_existing].
  revert w. induction jobs as [| [r sig] jobs IH]; intros w Hn.
  - simpl. auto.
  - rewrite deliver_all_cons. simpl first_mqtt.
    destruct (send_to_robot_mqtt net r sig w) as (Hno & _ & Hyes).
    destruct (reaches_mqtt r sig) eqn:Hr.
    + destruct (Hyes eq_refl Hn) as (c & k & p1 & H1 & Hk & H2 & H3).
      destruct (deliver_all_existing net jobs _ c H1) as [H4 (p2 & H5 & H6)].
      exists c, k, (p1 ++ p2). repeat split; auto.
      * rewrite H5, H2, !app_assoc. reflexivity.
      * rewrite forallb_app, H3, H6. auto.
    + destruct (Hno eq_refl) as [H1 H2].
      specialize (IH (snd (_send_to_robot net r sig w))).
      rewrite H1, H2 in IH. apply IH. assumption.
Qed.

Lemma mqtt_client_shared_witness :
  mqtt_client (svc empty_world) = None /\
  match first_mqtt [(mqtt_robot, wave); (mqtt_robot2, wave)] with
  | None =>
      mqtt_client (svc (snd (deliver_all all_ok [(mqtt_robot, wave); (mqtt_robot2, wave)] empty_world))) = None /\
      mqtt_calls (trace (snd (deliver_all all_ok [(mqtt_robot, wave); (mqtt_robot2, wave)] empty_world))) =
        mqtt_calls (trace empty_world)
  | Some r =>
      exists c k pubs,
        mqtt_client (svc (snd (deliver_all all_ok [(mqtt_robot, wave); (mqtt_robot2, wave)] empty_world))) = Some c /\
        1 <= k /\
        mqtt_calls (trace (snd (deliver_all all_ok [(mqtt_robot, wave); (mqtt_robot2, wave)] empty_world))) =
          mqtt_calls (trace empty_world) ++ firstn k (mqtt_setup c r) ++ pubs /\
        forallb (is_publish_on c) pubs = true
  end.
Proof.
  split; [reflexivity |].
  exact (proj1 (mqtt_client_shared all_ok [(mqtt_robot, wave); (mqtt_robot2, wave)] empty_world) eq_refl).
Defined.

(** The second robot's broker and credentials are never used: both
    publishes go through the client set up for [broker.local]. *)
Lemma mqtt_second_broker_unused :
  mqtt_calls (trace (snd (deliver_all all_ok [(mqtt_robot, wave); (mqtt_robot2, wave)] empty_world))) =
  [IoMqttNew; IoMqttConnect 0 (JStr "broker.local") (JNum 1883); IoMqttLoopStart 0;
   IoMqttPublish 0 (JStr "robots/m1") (to_dict wave);
   IoMqttPublish 0 (JStr "robots/m2") (to_dict wave)].
Proof. vm_compute. reflexivity. Qed.

(** C5 (counterexample): a failed MQTT connection is not invalidated.
    With the broker down, the first delivery to [m1] returns false but
    leaves [self.mqtt_client] set to the client whose [connect] raised;
    the second delivery does not reconnect: it publishes on that client
    and returns true.  The WebSocket connector, by contrast, drops its
    cached socket after a failed send and reconnects on the next
    delivery (handle 2 is a new connection). *)
Lemma mqtt_failed_client_reused :
  fst (_send_to_robot broker_down mqtt_robot wave robots_world) = Ok false /\
  mqtt_client (svc (snd (_send_to_robot broker_down mqtt_robot wave robots_world))) = Some 0 /\
  fst (_send_to_robot broker_down mqtt_robot wave
         (snd (_send_to_robot broker_down mqtt_robot wave robots_world))) = Ok true /\
  mqtt_calls (trace (snd (_send_to_robot broker_down mqtt_robot wave
         (snd (_send_to_robot broker_down mqtt_robot wave robots_world))))) =
    [IoMqttNew; IoMqttConnect 0 (JStr "broker.local") (JNum 1883);
     IoMqttPublish 0 (JStr "robots/m1") (to_dict wave)] /\
  fst (_send_to_robot first_ws_send_fails ws_robot wave robots_world) = Ok false /\
  websocket_connections (svc (snd (_send_to_robot first_ws_send_fails ws_robot wave robots_world))) = [] /\
  websocket_connections (svc (snd (_send_to_robot first_ws_send_fails ws_robot wave
         (snd (_send_to_robot first_ws_send_fails ws_robot wave robots_world))))) =
    [(JStr "w1", 2)].
Proof. vm_compute. repeat split; reflexivity. Qed.

(** C9 (counterexample): the [add_robot] endpoint stores an HTTP robot
    that has no [url] and returns normally; [load_robots] meets an entry
    with the unknown protocol ["ftp"], keeps the entry read before it,
    skips the one after it and returns normally, so no error reaches
    the caller. *)
Lemma registry_accepts_malformed :
  fst (add_robot_endpoint all_ok http_without_url empty_world) = Ok tt /\
  map fst (robots (svc (snd (add_robot_endpoint all_ok http_without_url empty_world)))) = [JStr "r9"] /\
  (exists r, kget (JStr "r9") (robots (svc (snd (add_robot_endpoint all_ok http_without_url empty_world))))
             = Some r /\ url r = JNull) /\
  fst (load_robots (Some robots_file_bad_protocol) empty_world) = Ok tt /\
  map fst (robots (svc (snd (load_robots (Some robots_file_bad_protocol) empty_world)))) = [JStr "a"].
Proof.
  vm_compute. repeat split; try reflexivity. eexists. split; reflexivity.
Qed.

Lemma load_each_prefix items : forall w,
  robots (svc (snd (load_each items w))) = Registry.store_all (Registry.loaded_prefix items) (robots (svc w)) /\
  clock (snd (load_each items w)) = clock w /\ trace (snd (load_each items w)) = trace w.
Proof.
  induction items as [| d rest IH]; intros w; simpl; [auto |].
  cbv [bind lift ret]. destruct (parse_robot_config d) as [r | e]; simpl; [| auto].
  unfold store_robot. destruct (hashable (id r)); simpl; [| auto].
  cbv [bind get put]. destruct (IH (mkWorld (set_robots (kset (id r) r (robots (svc w))) (svc w))
                                           (clock w) (trace w))) as (H1 & H2 & H3).
  simpl in *. rewrite H1, H2, H3. unfold Registry.store_all. simpl. auto.
Qed.

(** C9 (as the code does it): what registry mutation actually checks.
    [RobotConfig(...)] is built from any dict that has [id], [name] and
    a known [protocol], whatever transport fields are missing (they
    default to [None]), and the connectors only reject such a robot at
    delivery time, by returning false; the [add_robot] endpoint surfaces
    the error of a body it cannot build (a missing key, an unknown
    protocol) and leaves the registry unchanged; a body it can build is
    stored when its id is hashable, and the following save may still
    raise, while an unhashable id raises [TypeError] with nothing
    stored; [load_robots] never raises, whatever the file holds, and
    keeps exactly the entries read before the first bad one. *)
Theorem registry_mutation_errors net :
  (forall fs rid rname p proto,
     dict_get "id" fs = Some rid -> dict_get "name" fs = Some rname ->
     dict_get "protocol" fs = Some p -> protocol_of p = Ok proto ->
     parse_robot_config (JObj fs) =
       Ok (mkRobot rid rname proto
             (get_or fs "enabled" (JBool true)) (get_or fs "url" JNull)
             (get_or fs "headers" (JObj [])) (get_or fs "mqtt_broker" JNull)
             (get_or fs "mqtt_port" (JNum 1883)) (get_or fs "mqtt_topic" JNull)
             (get_or fs "mqtt_username" JNull) (get_or fs "mqtt_password" JNull)
             (get_or fs "serial_port" JNull) (get_or fs "serial_baudrate" (JNum 9600))
             (get_or fs "commands" (JObj [])))) /\
  (forall r d w, Registry.transport_configured r = false ->
     send_by_protocol net r d w = (Ok false, w)) /\
  (forall body w e,
     parse_robot_config (JObj body) = Raise e ->
     add_robot_endpoint net body w = (Raise e, w)) /\
  (forall body w r,
     parse_robot_config (JObj body) = Ok r -> hashable (id r) = false ->
     add_robot_endpoint net body w = (Raise TypeError, w)) /\
  (forall body w r,
     parse_robot_config (JObj body) = Ok r -> hashable (id r) = true ->
     robots (svc (snd (add_robot_endpoint net body w))) = kset (id r) r (robots (svc w)) /\
     (fst (add_robot_endpoint net body w) = Ok tt \/
      fst (add_robot_endpoint net body w) = Raise IoError)) /\
  (forall file w, fst (load_robots file w) = Ok tt) /\
  (forall fs items w, get_or fs "robots" (JArr []) = JArr items ->
     robots (svc (snd (load_robots (Some (JObj fs)) w))) =
       Registry.store_all (Registry.loaded_prefix items) (robots (svc w))).
Proof.
  split; [| split; [| split; [| split; [| split; [| split]]]]].
  - intros fs rid rname p proto Hi Hn Hp Hpr.
    unfold parse_robot_config, subscript. rewrite Hi, Hn, Hp, Hpr. reflexivity.
  - intros r d w. unfold Registry.transport_configured, send_by_protocol, _send_http,
      _send_websocket, _send_mqtt, _send_serial.
    destruct (protocol r); intros H; try (rewrite H; reflexivity).
    destruct (truthy (mqtt_broker r)), (truthy (mqtt_topic r)); try discriminate; reflexivity.
  - intros body w e He. unfold add_robot_endpoint, bind. rewrite He. reflexivity.
  - intros body w r Hr Hh. unfold add_robot_endpoint, add_robot, store_robot.
    cbv [bind lift raise]. rewrite Hr. simpl. rewrite Hh. reflexivity.
  - intros body w r Hr Hh. unfold add_robot_endpoint, add_robot, store_robot, save_robots.
    cbv [bind lift ret get put io]. rewrite Hr, Hh. simpl.
    destruct (net (clock w) _); simpl; auto.
  - intros file w. unfold load_robots, catch.
    destruct (_ w) as [[[] | e] w']; reflexivity.
  - intros fs items w Hi. unfold load_robots, catch. rewrite Hi. cbv [bind lift ret]. simpl.
    destruct (load_each_prefix items w) as [H _].
    destruct (load_each items w) as [[[] | e] w']; exact H.
Qed.

(** An add request whose id is a list, and the stored prefix of
    [robots_file_bad_protocol]. *)
Lemma registry_mutation_errors_witness :
  add_robot_endpoint all_ok [("id", JArr [JStr "r9"]); ("name", JStr "List id");
                             ("protocol", JStr "http")] empty_world = (Raise TypeError, empty_world) /\
  map fst (robots (svc (snd (load_robots (Some robots_file_bad_protocol) empty_world)))) =
    [JStr "a"].
Proof.
  destruct (registry_mutation_errors all_ok) as (_ & _ & _ & H4 & _ & _ & H7).
  split.
  - apply (H4 _ _ (mkRobot (JArr [JStr "r9"]) (JStr "List id") HTTP (JBool true) JNull (JObj [])
                       JNull (JNum 1883) JNull JNull JNull JNull (JNum 9600) (JObj [])));
      reflexivity.
  - unfold robots_file_bad_protocol. erewrite H7 by reflexivity. reflexivity.
Defined.

End DispatchFacts.


(* ------------------------------------------------------------------ *)
(** ** Robot registry: persistence, deletion, test endpoint, connectors *)
(* ------------------------------------------------------------------ *)

Module RegistryFacts.
Import Dispatch Registry.


Lemma key_eqb_sym a b : key_eqb a b = key_eqb b a.
Proof.
  destruct a, b; simpl; try reflexivity;
    try apply String.eqb_sym; try apply Z.eqb_sym;
    repeat match goal with b : bool |- _ => destruct b end; reflexivity.
Qed.

Lemma key_eqb_refl k : hashable k = true -> key_eqb k k = true.
Proof.
  destruct k; simpl; intros H; try discriminate; try reflexivity.
  - destruct b; reflexivity.
  - apply Z.eqb_refl.
  - apply String.eqb_refl.
Qed.

Lemma key_eqb_trans a b c : key_eqb a b = true -> key_eqb b c = true -> key_eqb a c = true.
Proof.
  destruct a, b, c; simpl; intros H1 H2; try discriminate; auto;
    repeat match goal with b : bool |- _ => destruct b end; simpl in *;
    try discriminate; auto;
    try (apply String.eqb_eq in H1, H2; subst; apply String.eqb_refl);
    try (apply Z.eqb_eq in H1, H2; subst; apply Z.eqb_refl);
    try (apply Z.eqb_eq in H1; subst; auto);
    try (apply Z.eqb_eq in H2; subst; auto).
Qed.

Lemma parse_robot_to_json r : parse_robot_config (robot_to_json r) = Ok r.
Proof. destruct r as [i n p]; destruct p; reflexivity. Qed.


Lemma kset_absent {V} k (v : V) d :
  kget k d = None -> kset k v d = d ++ [(k, v)].
Proof.
  induction d as [| [k' v'] d IH]; simpl; auto.
  destruct (key_eqb k k'); [discriminate |]. intros H. rewrite IH; auto.
Qed.

Lemma kget_app_none {V} k (d1 d2 : list (json * V)) :
  kget k d1 = None -> kget k d2 = None -> kget k (d1 ++ d2) = None.
Proof.
  induction d1 as [| [k' v'] d1 IH]; simpl; auto.
  destruct (key_eqb k k'); [discriminate |]. auto.
Qed.

Lemma kget_none_forall {V} k (d : list (json * V)) :
  forallb (fun k' => negb (key_eqb k k')) (map fst d) = true -> kget k d = None.
Proof.
  induction d as [| [k' v'] d IH]; simpl; auto.
  destruct (key_eqb k k'); simpl; [discriminate | auto].
Qed.

Lemma set_robots_set_robots d1 d2 s : set_robots d1 (set_robots d2 s) = set_robots d1 s.
Proof. destruct s; reflexivity. Qed.

Lemma load_each_saved rs : forall acc w,
  robots (svc w) = acc ->
  Forall (fun kr => fst kr = id (snd kr) /\ hashable (fst kr) = true) rs ->
  keys_distinct (map fst rs) = true ->
  (forall k, In k (map fst rs) -> kget k acc = None) ->
  load_each (map robot_to_json (map snd rs)) w =
    (Ok tt, mkWorld (set_robots (acc ++ rs) (svc w)) (clock w) (trace w)).
Proof.
  induction rs as [| [k r] rs IH]; intros acc w Hw Hf Hd Ha.
  - simpl. rewrite app_nil_r, <- Hw. destruct w as [[] c t]; reflexivity.
  - apply Forall_cons_iff in Hf as [[Hk Hh] Hf']. simpl in Hk, Hh. subst k.
    simpl in Hd. apply andb_prop in Hd as [Hd1 Hd2].
    simpl. cbv [bind lift ret]. rewrite parse_robot_to_json.
    unfold store_robot. rewrite Hh. cbv [bind get put].
    rewrite Hw, kset_absent by (apply Ha; simpl; auto).
    rewrite IH with (acc := acc ++ [(id r, r)]); simpl; auto.
    + rewrite set_robots_set_robots, <- app_assoc. reflexivity.
    + intros k Hin. apply kget_app_none; [apply Ha; simpl; auto |].
      simpl. rewrite key_eqb_sym.
      rewrite forallb_forall in Hd1. specialize (Hd1 k Hin).
      destruct (key_eqb (id r) k); [discriminate | reflexivity].
Qed.

(** Round trip through [robots.json]: loading, into an empty registry,
    the file [save_robots] writes for a registry keyed by robot id gives
    that registry back, with no call to the outside world. *)
Theorem load_saved_registry rs w :
  robots (svc w) = [] -> registry_ok rs ->
  load_robots (Some (robots_file_data (map snd rs))) w =
    (Ok tt, mkWorld (set_robots rs (svc w)) (clock w) (trace w)).
Proof.
  intros Hw [Hf Hd]. unfold load_robots, catch. simpl.
  cbv [bind lift ret]. simpl.
  rewrite map_map.
  rewrite <- (map_map snd robot_to_json).
  rewrite (load_each_saved rs [] w Hw Hf Hd); [reflexivity |].
  intros; reflexivity.
Qed.


Lemma kget_kdel_distinct {V} k (d : list (json * V)) :
  keys_distinct (map fst d) = true -> kget k (kdel k d) = None.
Proof.
  induction d as [| [k' v'] d IH]; simpl; auto.
  intros H. apply andb_prop in H as [H1 H2].
  destruct (key_eqb k k') eqn:E; simpl.
  - apply kget_none_forall. rewrite forallb_forall in *. intros k'' Hin.
    specialize (H1 k'' Hin). destruct (key_eqb k k'') eqn:E2; auto.
    rewrite key_eqb_sym in E. rewrite (key_eqb_trans _ _ _ E E2) in H1. discriminate.
  - rewrite E. auto.
Qed.

(** Deleting a robot: an unknown id gets a 404 and changes nothing; a
    registered robot is removed from the registry and the registry is
    saved, but the [_disconnect_robot] task [remove_robot] schedules
    runs after the removal, finds no robot and returns: the robot's
    cached WebSocket and serial connections stay open in the caches. *)
Theorem delete_robot_keeps_connections net rid w :
  keys_distinct (map fst (robots (svc w))) = true ->
  (kget (JStr rid) (robots (svc w)) = None ->
   delete_robot_request net rid w = (Ok (HttpError 404 "Robot not found"), w)) /\
  (forall r, kget (JStr rid) (robots (svc w)) = Some r ->
   let saved := IoSaveRobots (map snd (kdel (JStr rid) (robots (svc w)))) in
   delete_robot_request net rid w =
     ((if net (clock w) saved then Ok (delete_reply rid) else Raise IoError),
      mkWorld (set_robots (kdel (JStr rid) (robots (svc w))) (svc w))
              (S (clock w)) (trace w ++ [EvIo (clock w) saved (net (clock w) saved)]))).
Proof.
  intros Hd. split.
  - intros Hn. unfold delete_robot_request. rewrite Hn.
    unfold delete_robot. cbv [bind get kin ret]. simpl. rewrite Hn. reflexivity.
  - intros r Hr saved. unfold saved. unfold delete_robot_request.
    unfold delete_robot, remove_robot, save_robots.
    cbv [bind get kin ret put io raise].
    repeat progress (simpl; rewrite ?Hr).
    destruct (net (clock w) _) eqn:En; simpl;
      unfold _disconnect_robot, kget_m; cbv [bind get ret raise]; simpl;
      rewrite kget_kdel_distinct by assumption; reflexivity.
Qed.

(** The test endpoint: an unknown id gets a 404 with nothing sent; a
    registered robot, enabled or not, gets exactly one delivery of the
    test signal through [_send_to_robot], and the endpoint always
    replies, with the boolean that delivery returned. *)
Theorem test_robot_spec net now rid w :
  (kget (JStr rid) (robots (svc w)) = None ->
   test_robot net now rid w = (Ok (HttpError 404 "Robot not found"), w)) /\
  (forall r, kget (JStr rid) (robots (svc w)) = Some r ->
   exists b,
     fst (_send_to_robot net r (test_signal now) w) = Ok b /\
     test_robot net now rid w = (Ok (test_reply b), snd (_send_to_robot net r (test_signal now) w))).
Proof.
  split.
  - intros Hn. unfold test_robot. cbv [bind get kin ret]. simpl. rewrite Hn. reflexivity.
  - intros r Hr.
    destruct (DispatchFacts.send_to_robot_spec net r (test_signal now) w) as (b & l & Hb & _).
    exists b. split; auto.
    unfold test_robot. cbv [bind get kin ret klookup].
    repeat progress (simpl; rewrite ?Hr).
    pose proof (DispatchFacts.fst_ok _ _ _ Hb) as E. rewrite E. reflexivity.
Qed.


(** A robot whose protocol lacks its transport field ([url] for HTTP
    and WebSocket, broker or topic for MQTT, port for serial) is
    answered [False] by its connector with no call and no change. *)
Theorem connector_missing_field net r d w :
  transport_configured r = false -> send_by_protocol net r d w = (Ok false, w).
Proof.
  unfold transport_configured, send_by_protocol, _send_http, _send_websocket,
    _send_mqtt, _send_serial.
  destruct (protocol r); intros H; try (rewrite H; reflexivity).
  destruct (truthy (mqtt_broker r)), (truthy (mqtt_topic r)); try discriminate; reflexivity.
Qed.

Lemma kdel_app_absent {V} k k' (v : V) d :
  kget k d = None -> key_eqb k k' = true -> kdel k (d ++ [(k', v)]) = d.
Proof.
  intros Hn Hk. induction d as [| [k1 v1] d IH]; simpl in *.
  - rewrite Hk. reflexivity.
  - destruct (key_eqb k k1); [discriminate |]. rewrite IH; auto.
Qed.

Lemma set_ws_same s : set_ws (websocket_connections s) s = s.
Proof. destruct s; reflexivity. Qed.
Lemma set_ws_set_ws d1 d2 s : set_ws d1 (set_ws d2 s) = set_ws d1 s.
Proof. destruct s; reflexivity. Qed.
Lemma set_serial_same s : set_serial (serial_connections s) s = s.
Proof. destruct s; reflexivity. Qed.
Lemma set_serial_set_serial d1 d2 s : set_serial d1 (set_serial d2 s) = set_serial d1 s.
Proof. destruct s; reflexivity. Qed.

(** [_send_websocket] and its connection cache: a cached connection is
    reused for exactly one send and dropped from the cache when the send
    raises; otherwise a connection is opened and cached before the
    send, and taken out of the cache again when the send raises. *)
Theorem websocket_connection_cache net r d w :
  truthy (url r) = true -> hashable (id r) = true ->
  let ws := websocket_connections (svc w) in
  let t := clock w in
  (forall h, kget (id r) ws = Some h ->
   _send_websocket net r d w =
     if net t (IoWsSend h d)
     then (Ok true, mkWorld (svc w) (S t) (trace w ++ [EvIo t (IoWsSend h d) true]))
     else (Ok false, mkWorld (set_ws (kdel (id r) ws) (svc w)) (S t)
                             (trace w ++ [EvIo t (IoWsSend h d) false]))) /\
  (kget (id r) ws = None ->
   _send_websocket net r d w =
     if net t (IoWsConnect (url r)) then
       if net (S t) (IoWsSend t d)
       then (Ok true, mkWorld (set_ws (ws ++ [(id r, t)]) (svc w)) (S (S t))
                              (trace w ++ [EvIo t (IoWsConnect (url r)) true;
                                           EvIo (S t) (IoWsSend t d) true]))
       else (Ok false, mkWorld (svc w) (S (S t))
                               (trace w ++ [EvIo t (IoWsConnect (url r)) true;
                                            EvIo (S t) (IoWsSend t d) false]))
     else (Ok false, mkWorld (svc w) (S t) (trace w ++ [EvIo t (IoWsConnect (url r)) false]))).
Proof.
  intros Hu Hh ws t. unfold ws, t in *. clear ws t.
  unfold _send_websocket. rewrite Hu. simpl negb. cbv iota.
  split.
  - intros h Hk.
    cbv [bind catch get put kin klookup io ret raise].
    repeat progress (simpl; rewrite ?Hh, ?Hk).
    destruct (net (clock w) (IoWsSend h d)); simpl; rewrite ?Hh, ?Hk; reflexivity.
  - intros Hk.
    cbv [bind catch get put kin klookup io ret raise].
    repeat progress (simpl; rewrite ?Hh, ?Hk).
    destruct (net (clock w) (IoWsConnect (url r))); simpl;
      [| repeat progress (simpl; rewrite ?Hh, ?Hk); reflexivity].
    rewrite kset_absent by assumption.
    assert (Hg : kget (id r) (websocket_connections (svc w) ++ [(id r, clock w)]) = Some (clock w)).
    { clear - Hk Hh. induction (websocket_connections (svc w)) as [| [k v] ws IH]; simpl in *.
      - rewrite key_eqb_refl by assumption. reflexivity.
      - destruct (key_eqb (id r) k); [discriminate | auto]. }
    repeat progress (simpl; rewrite ?Hh, ?Hg).
    destruct (net (S (clock w)) (IoWsSend (clock w) d));
      repeat progress (simpl; rewrite ?Hh, ?Hg).
    + rewrite <- app_assoc. reflexivity.
    + rewrite kdel_app_absent by (auto using key_eqb_refl).
      rewrite set_ws_set_ws, <- app_assoc, set_ws_same. reflexivity.
Qed.


(** [_send_serial] and its port cache: a cached port is written and
    flushed, and dropped from the cache when either raises; otherwise
    the port is opened and cached first, and taken out again when the
    write or the flush raises. *)
Theorem serial_connection_cache net r d w :
  truthy (serial_port r) = true -> hashable (id r) = true ->
  let sc := serial_connections (svc w) in
  let t := clock w in
  let opn := IoSerialOpen (serial_port r) (serial_baudrate r) in
  (forall h, kget (id r) sc = Some h ->
   _send_serial net r d w =
     if net t (IoSerialWrite h d) then
       if net (S t) (IoSerialFlush h)
       then (Ok true, mkWorld (svc w) (S (S t))
                              (trace w ++ [EvIo t (IoSerialWrite h d) true;
                                           EvIo (S t) (IoSerialFlush h) true]))
       else (Ok false, mkWorld (set_serial (kdel (id r) sc) (svc w)) (S (S t))
                               (trace w ++ [EvIo t (IoSerialWrite h d) true;
                                            EvIo (S t) (IoSerialFlush h) false]))
     else (Ok false, mkWorld (set_serial (kdel (id r) sc) (svc w)) (S t)
                             (trace w ++ [EvIo t (IoSerialWrite h d) false]))) /\
  (kget (id r) sc = None ->
   _send_serial net r d w =
     if net t opn then
       if net (S t) (IoSerialWrite t d) then
         if net (S (S t)) (IoSerialFlush t)
         then (Ok true, mkWorld (set_serial (sc ++ [(id r, t)]) (svc w)) (S (S (S t)))
                                (trace w ++ [EvIo t opn true; EvIo (S t) (IoSerialWrite t d) true;
                                             EvIo (S (S t)) (IoSerialFlush t) true]))
         else (Ok false, mkWorld (svc w) (S (S (S t)))
                                 (trace w ++ [EvIo t opn true; EvIo (S t) (IoSerialWrite t d) true;
                                              EvIo (S (S t)) (IoSerialFlush t) false]))
       else (Ok false, mkWorld (svc w) (S (S t))
                               (trace w ++ [EvIo t opn true; EvIo (S t) (IoSerialWrite t d) false]))
     else (Ok false, mkWorld (svc w) (S t) (trace w ++ [EvIo t opn false]))).
Proof.
  intros Hu Hh sc t opn. unfold sc, t, opn in *. clear sc t opn.
  unfold _send_serial. rewrite Hu. simpl negb. cbv iota.
  split.
  - intros h Hk.
    cbv [bind catch get put kin klookup io ret raise].
    repeat progress (simpl; rewrite ?Hh, ?Hk).
    destruct (net (clock w) (IoSerialWrite h d));
      [destruct (net (S (clock w)) (IoSerialFlush h)) |];
      repeat progress (simpl; rewrite ?Hh, ?Hk); rewrite <- ?app_assoc; reflexivity.
  - intros Hk.
    cbv [bind catch get put kin klookup io ret raise].
    repeat progress (simpl; rewrite ?Hh, ?Hk).
    destruct (net (clock w) (IoSerialOpen (serial_port r) (serial_baudrate r))); simpl;
      [| repeat progress (simpl; rewrite ?Hh, ?Hk); reflexivity].
    rewrite kset_absent by assumption.
    assert (Hg : kget (id r) (serial_connections (svc w) ++ [(id r, clock w)]) = Some (clock w)).
    { clear - Hk Hh. induction (serial_connections (svc w)) as [| [k v] sc IH]; simpl in *.
      - rewrite key_eqb_refl by assumption. reflexivity.
      - destruct (key_eqb (id r) k); [discriminate | auto]. }
    repeat progress (simpl; rewrite ?Hh, ?Hg).
    destruct (net (S (clock w)) (IoSerialWrite (clock w) d));
      [destruct (net (S (S (clock w))) (IoSerialFlush (clock w))) |];
      repeat progress (simpl; rewrite ?Hh, ?Hg);
      rewrite ?kdel_app_absent by (auto using key_eqb_refl);
      rewrite ?set_serial_set_serial, <- ?app_assoc, ?set_serial_same; reflexivity.
Qed.

End RegistryFacts.


(* ------------------------------------------------------------------ *)
(** ** Event prompt endpoints *)
(* ------------------------------------------------------------------ *)

Module PromptFacts.
Import Prompts.

Lemma dict_get_dict_set k' k v d :
  dict_get k' (dict_set k v d) = if String.eqb k' k then Some v else dict_get k' d.
Proof.
  induction d as [| [k1 v1] d IH]; simpl.
  - reflexivity.
  - destruct (String.eqb_spec k k1) as [<- | Hne]; simpl.
    + destruct (String.eqb k' k); reflexivity.
    + rewrite IH. destruct (String.eqb_spec k' k1) as [-> | Hne']; auto.
      destruct (String.eqb_spec k1 k); congruence.
Qed.

Lemma dict_set_keys k v d : dict_get k d <> None -> map fst (dict_set k v d) = map fst d.
Proof.
  induction d as [| [k1 v1] d IH]; simpl; intros H; [congruence |].
  destruct (String.eqb_spec k k1); simpl; auto. f_equal. auto.
Qed.

Lemma dict_set_absent k v d : dict_get k d = None -> dict_set k v d = d ++ [(k, v)].
Proof.
  induction d as [| [k1 v1] d IH]; simpl; auto.
  destruct (String.eqb k k1); [discriminate |]. intros H. rewrite IH; auto.
Qed.

Lemma dict_get_in_keys k d : dict_get k d <> None -> In k (map fst d).
Proof.
  induction d as [| [k1 v1] d IH]; simpl; intros H; [congruence |].
  destruct (String.eqb_spec k k1); auto.
Qed.

Lemma in_keys_dict_get k d : In k (map fst d) -> dict_get k d <> None.
Proof.
  induction d as [| [k1 v1] d IH]; simpl; intros H; [contradiction |].
  destruct (String.eqb_spec k k1); [discriminate |]. destruct H; [congruence | auto].
Qed.

Lemma in_nodup_dict_get k v d : NoDup (map fst d) -> In (k, v) d -> dict_get k d = Some v.
Proof.
  induction d as [| [k1 v1] d IH]; simpl; intros Hn Hin; [contradiction |].
  inversion Hn as [| ? ? Hnot Hn']; subst.
  destruct Hin as [E | Hin].
  - injection E as -> ->. rewrite String.eqb_refl. reflexivity.
  - destruct (String.eqb_spec k k1) as [-> | _]; auto.
    exfalso. apply Hnot. change k1 with (fst (k1, v)). apply in_map. assumption.
Qed.

Lemma set_field_ok pid key v prompts :
  is_obj_at pid prompts = true ->
  exists p', set_field pid key v prompts = Some p' /\
    map fst p' = map fst prompts /\
    (forall pid', is_obj_at pid' p' = is_obj_at pid' prompts) /\
    (forall pid' key', field_of pid' key' p' =
       if String.eqb pid' pid && String.eqb key' key then Some v else field_of pid' key' prompts).
Proof.
  unfold is_obj_at, set_field, field_of.
  destruct (dict_get pid prompts) as [[| | | | | fields] |] eqn:E; try discriminate.
  intros _. eexists. split; [reflexivity |]. split; [| split].
  - apply dict_set_keys. congruence.
  - intros pid'. rewrite dict_get_dict_set.
    destruct (String.eqb_spec pid' pid) as [-> | _]; [rewrite E |]; reflexivity.
  - intros pid' key'. rewrite dict_get_dict_set.
    destruct (String.eqb_spec pid' pid) as [-> | _]; simpl; [rewrite E |]; auto.
    rewrite dict_get_dict_set. reflexivity.
Qed.


Lemma activate_all_spec now target pids : forall i prompts,
  forallb (fun pid => is_obj_at pid prompts) pids = true ->
  exists p', activate_all now i target pids prompts = Some p' /\
    map fst p' = map fst prompts /\
    (forall pid, is_obj_at pid p' = is_obj_at pid prompts) /\
    (forall pid, In pid pids ->
       field_of pid "is_active" p' = Some (JBool (String.eqb pid target))) /\
    (forall pid, ~ In pid pids -> field_of pid "is_active" p' = field_of pid "is_active" prompts) /\
    (forall pid key, key <> "is_active" -> key <> "updated_at" ->
       field_of pid key p' = field_of pid key prompts).
Proof.
  induction pids as [| pid pids IH]; intros i prompts Hobj.
  - exists prompts. simpl. repeat split; auto. intros pid [].
  - simpl in Hobj. apply andb_prop in Hobj as [Ho Hobj].
    destruct (set_field_ok pid "is_active" (JBool (String.eqb pid target)) prompts Ho)
      as (p1 & E1 & K1 & O1 & F1).
    assert (Ho1 : is_obj_at pid p1 = true) by (rewrite O1; exact Ho).
    destruct (set_field_ok pid "updated_at" (JStr (now i)) p1 Ho1) as (p2 & E2 & K2 & O2 & F2).
    assert (Hobj2 : forallb (fun pid => is_obj_at pid p2) pids = true).
    { rewrite forallb_forall in *. intros x Hx. rewrite O2, O1. auto. }
    destruct (IH (S i) p2 Hobj2) as (p3 & E3 & K3 & O3 & F3 & N3 & G3).
    exists p3. simpl. rewrite E1. simpl. rewrite E2. simpl. rewrite E3.
    split; [reflexivity |]. split; [congruence |]. split; [congruence |].
    split; [| split].
    + intros x Hx. destruct (in_dec string_dec x pids) as [Hin | Hnin]; [auto |].
      destruct Hx as [<- | Hx]; [| contradiction].
      rewrite N3 by assumption. rewrite F2, F1, String.eqb_refl. reflexivity.
    + intros x Hx. rewrite N3 by (intros H; apply Hx; right; exact H).
      rewrite F2, F1. destruct (String.eqb_spec x pid); [exfalso; apply Hx; left; auto |].
      reflexivity.
    + intros x key H1 H2. rewrite G3, F2, F1 by assumption.
      destruct (String.eqb_spec key "updated_at"); [contradiction |].
      destruct (String.eqb_spec key "is_active"); [contradiction |].
      rewrite !andb_false_r. reflexivity.
Qed.

Lemma deactivate_all_spec pids : forall prompts,
  forallb (fun pid => is_obj_at pid prompts) pids = true ->
  exists p', deactivate_all pids prompts = Some p' /\
    map fst p' = map fst prompts /\
    (forall pid, is_obj_at pid p' = is_obj_at pid prompts) /\
    (forall pid, In pid pids -> field_of pid "is_active" p' = Some (JBool false)) /\
    (forall pid, ~ In pid pids -> field_of pid "is_active" p' = field_of pid "is_active" prompts) /\
    (forall pid key, key <> "is_active" -> field_of pid key p' = field_of pid key prompts).
Proof.
  induction pids as [| pid pids IH]; intros prompts Hobj.
  - exists prompts. simpl. repeat split; auto. intros pid [].
  - simpl in Hobj. apply andb_prop in Hobj as [Ho Hobj].
    destruct (set_field_ok pid "is_active" (JBool false) prompts Ho) as (p1 & E1 & K1 & O1 & F1).
    assert (Hobj1 : forallb (fun pid => is_obj_at pid p1) pids = true).
    { rewrite forallb_forall in *. intros x Hx. rewrite O1. auto. }
    destruct (IH p1 Hobj1) as (p3 & E3 & K3 & O3 & F3 & N3 & G3).
    exists p3. simpl. rewrite E1. simpl. rewrite E3.
    split; [reflexivity |]. split; [congruence |]. split; [congruence |].
    split; [| split].
    + intros x Hx. destruct (in_dec string_dec x pids) as [Hin | Hnin]; [auto |].
      destruct Hx as [<- | Hx]; [| contradiction].
      rewrite N3 by assumption. rewrite F1, String.eqb_refl. reflexivity.
    + intros x Hx. rewrite N3 by (intros H; apply Hx; right; exact H).
      rewrite F1. destruct (String.eqb_spec x pid); [exfalso; apply Hx; left; auto |].
      reflexivity.
    + intros x key H1. rewrite G3, F1 by assumption.
      destruct (String.eqb_spec key "is_active"); [contradiction |].
      rewrite andb_false_r. reflexivity.
Qed.

(** With each prompt's [is_active] set to whether its id is [target],
    the first active prompt is the one stored under [target]. *)
Lemma first_active_exclusive target d :
  (forall pid v, In (pid, v) d ->
     exists fields, v = JObj fields /\
       dict_get "is_active" fields = Some (JBool (String.eqb pid target))) ->
  first_active (map snd d) = Some (dict_get target d).
Proof.
  induction d as [| [pid v] d IH]; intros H; simpl; [reflexivity |].
  destruct (H pid v (or_introl eq_refl)) as (fields & -> & Hf).
  rewrite Hf. simpl. rewrite String.eqb_sym.
  destruct (String.eqb target pid); [reflexivity |].
  apply IH. intros; apply H; right; assumption.
Qed.

Lemma field_of_in pid v d key x :
  NoDup (map fst d) -> In (pid, v) d -> field_of pid key d = Some x ->
  exists fields, v = JObj fields /\ dict_get key fields = Some x.
Proof.
  intros Hn Hin. unfold field_of. rewrite (in_nodup_dict_get _ _ _ Hn Hin).
  destruct v; try discriminate. eauto.
Qed.


Lemma obj_at_fields pid d :
  is_obj_at pid d = true -> exists fields, dict_get pid d = Some (JObj fields).
Proof.
  unfold is_obj_at. destruct (dict_get pid d) as [[| | | | | fields] |]; try discriminate; eauto.
Qed.

Lemma exclusive_flags target d :
  NoDup (map fst d) ->
  (forall pid, In pid (map fst d) ->
     field_of pid "is_active" d = Some (JBool (String.eqb pid target))) ->
  first_active (map snd d) = Some (dict_get target d).
Proof.
  intros Hn Hf. apply first_active_exclusive. intros pid v Hin.
  apply (field_of_in pid v d "is_active"); auto.
  apply Hf. change pid with (fst (pid, v)). apply in_map. assumption.
Qed.

(** [activate_prompt] on a file of dict prompts with distinct ids:
    afterwards exactly the target is active, nothing but [is_active]
    and [updated_at] changed, [get_active_prompt] returns the target,
    and the file is written even when the reply then fails because the
    prompt has no [name]. *)
Theorem activate_prompt_exclusive now py_str target f :
  NoDup (map fst (load_prompts f)) ->
  forallb (fun pid => is_obj_at pid (load_prompts f)) (map fst (load_prompts f)) = true ->
  dict_get target (load_prompts f) <> None ->
  exists p' v,
    snd (activate_prompt now py_str target f) = Some p' /\
    dict_get target p' = Some v /\
    map fst p' = map fst (load_prompts f) /\
    (forall pid, In pid (map fst (load_prompts f)) ->
       field_of pid "is_active" p' = Some (JBool (String.eqb pid target))) /\
    (forall pid key, key <> "is_active" -> key <> "updated_at" ->
       field_of pid key p' = field_of pid key (load_prompts f)) /\
    get_active_prompt (Some p') = Reply v /\
    fst (activate_prompt now py_str target f) =
      match field_of target "name" (load_prompts f) with
      | Some n => Reply (JObj [("message", JStr ("Prompt '" ++ py_str n ++ "' activated")%string);
                               ("prompt", v)])
      | None => Crash
      end.
Proof.
  intros Hn Hobj Ht.
  destruct (activate_all_spec now target (map fst (load_prompts f)) 0 (load_prompts f) Hobj)
    as (p' & E & K & O & F & N & G).
  assert (Hto : is_obj_at target p' = true).
  { rewrite O. rewrite forallb_forall in Hobj. apply Hobj, dict_get_in_keys, Ht. }
  destruct (obj_at_fields _ _ Hto) as [fields Hf].
  exists p', (JObj fields).
  unfold activate_prompt.
  destruct (dict_get target (load_prompts f)) eqn:Et; [| congruence].
  rewrite E. simpl. rewrite Hf.
  split; [reflexivity |]. split; [reflexivity |]. split; [exact K |].
  split; [exact F |]. split; [exact G |]. split.
  - unfold get_active_prompt. simpl.
    rewrite (exclusive_flags target).
    + rewrite Hf. reflexivity.
    + rewrite K. exact Hn.
    + intros pid Hin. rewrite K in Hin. auto.
  - rewrite <- G by discriminate. unfold field_of. rewrite Hf. reflexivity.
Qed.


Lemma opt_set_ok pid key v prompts :
  is_obj_at pid prompts = true ->
  exists p', opt_set pid key v prompts = Some p' /\
    map fst p' = map fst prompts /\
    (forall pid', is_obj_at pid' p' = is_obj_at pid' prompts) /\
    (forall pid' key', field_of pid' key' p' =
       match v with
       | Some x => if String.eqb pid' pid && String.eqb key' key then Some x
                   else field_of pid' key' prompts
       | None => field_of pid' key' prompts
       end).
Proof.
  intros Ho. destruct v as [x |]; simpl.
  - apply set_field_ok; assumption.
  - eexists; repeat split; eauto.
Qed.

Ltac neq_rw :=
  repeat match goal with
  | H : ?a <> ?b |- context [String.eqb ?a ?b] => rewrite (proj2 (String.eqb_neq a b) H)
  | |- context [String.eqb ?a ?a] => rewrite String.eqb_refl
  end.

(** [update_prompt] on a file of dict prompts with distinct ids sets
    the given fields of the target and its [updated_at]; [is_active =
    true] first deactivates every prompt, so that the target is then
    the active prompt; no other field of another prompt changes. *)
Theorem update_prompt_spec now target u f :
  NoDup (map fst (load_prompts f)) ->
  forallb (fun pid => is_obj_at pid (load_prompts f)) (map fst (load_prompts f)) = true ->
  dict_get target (load_prompts f) <> None ->
  exists p' v,
    update_prompt now target u f = (Reply v, Some p') /\
    dict_get target p' = Some v /\
    map fst p' = map fst (load_prompts f) /\
    field_of target "updated_at" p' = Some (JStr now) /\
    field_of target "name" p' =
      match upd_name u with Some x => Some (JStr x) | None => field_of target "name" (load_prompts f) end /\
    field_of target "description" p' =
      match upd_description u with
      | Some x => Some (JStr x) | None => field_of target "description" (load_prompts f) end /\
    field_of target "system_instruction" p' =
      match upd_system_instruction u with
      | Some x => Some (JStr x) | None => field_of target "system_instruction" (load_prompts f) end /\
    field_of target "voice" p' =
      match upd_voice u with Some x => Some (JStr x) | None => field_of target "voice" (load_prompts f) end /\
    (forall pid key, pid <> target -> key <> "is_active" ->
       field_of pid key p' = field_of pid key (load_prompts f)) /\
    match upd_is_active u with
    | Some true =>
        (forall pid, In pid (map fst (load_prompts f)) ->
           field_of pid "is_active" p' = Some (JBool (String.eqb pid target))) /\
        get_active_prompt (Some p') = Reply v
    | Some false =>
        field_of target "is_active" p' = Some (JBool false) /\
        (forall pid, pid <> target ->
           field_of pid "is_active" p' = field_of pid "is_active" (load_prompts f))
    | None =>
        forall pid, field_of pid "is_active" p' = field_of pid "is_active" (load_prompts f)
    end.
Proof.
  intros Hn Hobj Ht.
  set (P := load_prompts f) in *.
  assert (Ho : is_obj_at target P = true).
  { rewrite forallb_forall in Hobj. apply Hobj, dict_get_in_keys, Ht. }
  destruct u as [un ud ui uv ua]. simpl.
  unfold update_prompt. fold P.
  destruct (dict_get target P) eqn:Et; [| congruence].
  unfold update_fields. simpl.
  destruct (opt_set_ok target "name" (option_map JStr un) P Ho) as (p1 & E1 & K1 & O1 & F1).
  rewrite E1. simpl.
  assert (Ho1 : is_obj_at target p1 = true) by (rewrite O1; exact Ho).
  destruct (opt_set_ok target "description" (option_map JStr ud) p1 Ho1) as (p2 & E2 & K2 & O2 & F2).
  rewrite E2. simpl.
  assert (Ho2 : is_obj_at target p2 = true) by (rewrite O2; exact Ho1).
  destruct (opt_set_ok target "system_instruction" (option_map JStr ui) p2 Ho2)
    as (p3 & E3 & K3 & O3 & F3).
  rewrite E3. simpl.
  assert (Ho3 : is_obj_at target p3 = true) by (rewrite O3; exact Ho2).
  destruct (opt_set_ok target "voice" (option_map JStr uv) p3 Ho3) as (p4 & E4 & K4 & O4 & F4).
  rewrite E4. simpl.
  assert (Ho4 : is_obj_at target p4 = true) by (rewrite O4; exact Ho3).
  assert (F14 : forall pid key, key <> "name" -> key <> "description" ->
             key <> "system_instruction" -> key <> "voice" ->
             field_of pid key p4 = field_of pid key P).
  { intros pid key H1 H2 H3 H4. rewrite F4, F3, F2, F1.
    destruct uv, ui, ud, un; simpl; neq_rw; rewrite ?andb_false_r; reflexivity. }
  assert (Fn : forall pid key, pid <> target -> field_of pid key p4 = field_of pid key P).
  { intros pid key H. rewrite F4, F3, F2, F1.
    destruct uv, ui, ud, un; simpl; neq_rw; reflexivity. }
  assert (Fname : field_of target "name" p4 =
            match un with Some x => Some (JStr x) | None => field_of target "name" P end).
  { rewrite F4, F3, F2, F1. destruct uv, ui, ud, un; simpl; neq_rw; reflexivity. }
  assert (Fdesc : field_of target "description" p4 =
            match ud with Some x => Some (JStr x) | None => field_of target "description" P end).
  { rewrite F4, F3, F2, F1. destruct uv, ui, ud, un; simpl; neq_rw; reflexivity. }
  assert (Finst : field_of target "system_instruction" p4 =
            match ui with Some x => Some (JStr x) | None => field_of target "system_instruction" P end).
  { rewrite F4, F3, F2, F1. destruct uv, ui, ud, un; simpl; neq_rw; reflexivity. }
  assert (Fvoice : field_of target "voice" p4 =
            match uv with Some x => Some (JStr x) | None => field_of target "voice" P end).
  { rewrite F4, F3, F2, F1. destruct uv, ui, ud, un; simpl; neq_rw; reflexivity. }
  assert (K14 : map fst p4 = map fst P) by congruence.
  assert (O14 : forall pid, is_obj_at pid p4 = is_obj_at pid P) by congruence.
  clear E1 E2 E3 E4 F1 F2 F3 F4 K1 K2 K3 K4 O1 O2 O3 O4 Ho1 Ho2 Ho3.
  assert (H5 : exists p5,
    match ua with
    | Some b =>
        obind (if b then deactivate_all (map fst p4) p4 else Some p4)
              (set_field target "is_active" (JBool b))
    | None => Some p4
    end = Some p5 /\
    map fst p5 = map fst p4 /\
    (forall pid, is_obj_at pid p5 = is_obj_at pid p4) /\
    (forall pid key, key <> "is_active" -> field_of pid key p5 = field_of pid key p4) /\
    match ua with
    | Some true =>
        forall pid, In pid (map fst p4) ->
          field_of pid "is_active" p5 = Some (JBool (String.eqb pid target))
    | Some false =>
        field_of target "is_active" p5 = Some (JBool false) /\
        (forall pid, pid <> target -> field_of pid "is_active" p5 = field_of pid "is_active" p4)
    | None => forall pid, field_of pid "is_active" p5 = field_of pid "is_active" p4
    end).
  { destruct ua as [[|] |].
    - assert (Hall : forallb (fun pid => is_obj_at pid p4) (map fst p4) = true).
      { rewrite forallb_forall in *. intros x Hx. rewrite O14. apply Hobj. congruence. }
      destruct (deactivate_all_spec (map fst p4) p4 Hall) as (q & Eq & Kq & Oq & Fq & Nq & Gq).
      assert (Hoq : is_obj_at target q = true) by (rewrite Oq; exact Ho4).
      destruct (set_field_ok target "is_active" (JBool true) q Hoq) as (p5 & E5 & K5 & O5 & F5).
      exists p5. simpl. rewrite Eq. simpl. rewrite E5.
      split; [reflexivity |]. split; [congruence |]. split; [congruence |]. split.
      + intros pid key Hk. rewrite F5. neq_rw. rewrite andb_false_r. auto.
      + intros pid Hin. rewrite F5. destruct (String.eqb_spec pid target) as [-> | Hne].
        * reflexivity.
        * simpl. auto.
    - destruct (set_field_ok target "is_active" (JBool false) p4 Ho4) as (p5 & E5 & K5 & O5 & F5).
      exists p5. simpl. rewrite E5.
      split; [reflexivity |]. split; [congruence |]. split; [congruence |]. split.
      + intros pid key Hk. rewrite F5. neq_rw. rewrite andb_false_r. auto.
      + split.
        * rewrite F5. neq_rw. reflexivity.
        * intros pid Hne. rewrite F5. neq_rw. reflexivity.
    - exists p4. repeat split; auto. }
  destruct H5 as (p5 & E5 & K5 & O5 & G5 & F5). rewrite E5. simpl.
  assert (Ho5 : is_obj_at target p5 = true) by (rewrite O5; exact Ho4).
  destruct (set_field_ok target "updated_at" (JStr now) p5 Ho5) as (p6 & E6 & K6 & O6 & F6).
  rewrite E6.
  assert (Ho6 : is_obj_at target p6 = true) by (rewrite O6; exact Ho5).
  destruct (obj_at_fields _ _ Ho6) as [fields Hf]. rewrite Hf.
  exists p6, (JObj fields).
  split; [reflexivity |]. split; [exact Hf |]. split; [congruence |].
  split; [rewrite F6; neq_rw; reflexivity |].
  split; [rewrite F6, String.eqb_refl; replace ("name" =? "updated_at") with false by reflexivity; simpl andb; cbv iota; rewrite G5, Fname by discriminate; reflexivity |].
  split; [rewrite F6, String.eqb_refl; replace ("description" =? "updated_at") with false by reflexivity; simpl andb; cbv iota; rewrite G5, Fdesc by discriminate; reflexivity |].
  split; [rewrite F6, String.eqb_refl; replace ("system_instruction" =? "updated_at") with false by reflexivity; simpl andb; cbv iota; rewrite G5, Finst by discriminate; reflexivity |].
  split; [rewrite F6, String.eqb_refl; replace ("voice" =? "updated_at") with false by reflexivity; simpl andb; cbv iota; rewrite G5, Fvoice by discriminate; reflexivity |].
  split.
  - intros pid key Hne Hk. rewrite F6. neq_rw. simpl. rewrite G5 by assumption. auto.
  - assert (Fa : forall pid, field_of pid "is_active" p6 = field_of pid "is_active" p5).
    { intros pid. rewrite F6. rewrite andb_false_r. reflexivity. }
    destruct ua as [[|] |].
    + split.
      * intros pid Hin. rewrite Fa. apply F5. congruence.
      * unfold get_active_prompt. simpl.
        rewrite (exclusive_flags target).
        -- rewrite Hf. reflexivity.
        -- congruence.
        -- intros pid Hin. rewrite Fa. apply F5. congruence.
    + destruct F5 as [F5a F5b]. split.
      * rewrite Fa. exact F5a.
      * intros pid Hne. rewrite Fa, F5b, Fn by assumption. reflexivity.
    + intros pid. rewrite Fa, F5. destruct (String.eqb_spec pid target) as [-> | Hne].
      * rewrite F14 by discriminate. reflexivity.
      * apply Fn. assumption.
Qed.



Lemma set_field_keys pid key v d d' :
  set_field pid key v d = Some d' -> map fst d' = map fst d.
Proof.
  unfold set_field. destruct (dict_get pid d) as [[| | | | | fields] |] eqn:E; try discriminate.
  intros H. injection H as <-. apply dict_set_keys. congruence.
Qed.

Lemma opt_set_keys pid key v d d' :
  opt_set pid key v d = Some d' -> map fst d' = map fst d.
Proof.
  destruct v; simpl; [apply set_field_keys | congruence].
Qed.

Lemma deactivate_all_keys pids : forall d d',
  deactivate_all pids d = Some d' -> map fst d' = map fst d.
Proof.
  induction pids as [| pid pids IH]; simpl; intros d d' H; [congruence |].
  destruct (set_field pid "is_active" (JBool false) d) as [d1 |] eqn:E; [| discriminate].
  simpl in H. rewrite (IH _ _ H). eapply set_field_keys; eauto.
Qed.

Lemma activate_all_keys now target pids : forall i d d',
  activate_all now i target pids d = Some d' -> map fst d' = map fst d.
Proof.
  induction pids as [| pid pids IH]; simpl; intros i d d' H; [congruence |].
  destruct (set_field pid "is_active" _ d) as [d1 |] eqn:E1; [| discriminate]. simpl in H.
  destruct (set_field pid "updated_at" _ d1) as [d2 |] eqn:E2; [| discriminate]. simpl in H.
  rewrite (IH _ _ _ H), (set_field_keys _ _ _ _ _ E2). eapply set_field_keys; eauto.
Qed.

Lemma update_fields_keys now pid u d d' :
  update_fields now pid u d = Some d' -> map fst d' = map fst d.
Proof.
  unfold update_fields.
  destruct (opt_set pid "name" _ d) as [d1 |] eqn:E1; [| discriminate]. simpl.
  destruct (opt_set pid "description" _ d1) as [d2 |] eqn:E2; [| discriminate]. simpl.
  destruct (opt_set pid "system_instruction" _ d2) as [d3 |] eqn:E3; [| discriminate]. simpl.
  destruct (opt_set pid "voice" _ d3) as [d4 |] eqn:E4; [| discriminate]. simpl.
  assert (K4 : map fst d4 = map fst d).
  { rewrite (opt_set_keys _ _ _ _ _ E4), (opt_set_keys _ _ _ _ _ E3),
      (opt_set_keys _ _ _ _ _ E2), (opt_set_keys _ _ _ _ _ E1). reflexivity. }
  destruct (match upd_is_active u with
            | Some b => obind (if b then deactivate_all (map fst d4) d4 else Some d4)
                          (set_field pid "is_active" (JBool b))
            | None => Some d4 end) as [d5 |] eqn:E5; [| discriminate]. simpl.
  intros H6. rewrite (set_field_keys _ _ _ _ _ H6), <- K4.
  destruct (upd_is_active u) as [[|] |].
  - simpl in E5. destruct (deactivate_all (map fst d4) d4) as [q |] eqn:Eq; [| discriminate].
    simpl in E5. rewrite (set_field_keys _ _ _ _ _ E5). eapply deactivate_all_keys; eauto.
  - simpl in E5. eapply set_field_keys; eauto.
  - congruence.
Qed.

Lemma dict_set_nonempty k v d : dict_set k v d <> [].
Proof. destruct d as [| [k1 v1] d]; simpl; [discriminate |]. destruct (String.eqb k k1); discriminate. Qed.

Lemma dict_pop_length k d :
  dict_get k d <> None -> List.length (dict_pop k d) = pred (List.length d).
Proof.
  induction d as [| [k1 v1] d IH]; simpl; intros H; [congruence |].
  destruct (String.eqb k k1); [reflexivity |]. simpl. rewrite IH by assumption.
  destruct d as [| x d]; simpl in *; [congruence | reflexivity].
Qed.

Lemma handle_nonempty r f :
  load_prompts f <> [] -> load_prompts (snd (handle r f)) <> [].
Proof.
  intros Hf. destruct r as [now lower p | now pid u | pid | now py_str pid]; simpl.
  - unfold create_prompt. destruct (dict_get _ _); simpl; [assumption | apply dict_set_nonempty].
  - unfold update_prompt. destruct (dict_get pid _); simpl; [| assumption].
    destruct (update_fields now pid u (load_prompts f)) as [d' |] eqn:E; simpl; [| assumption].
    apply update_fields_keys in E. intros ->. apply Hf. destruct (load_prompts f); [reflexivity | discriminate].
  - unfold delete_prompt. destruct (dict_get pid (load_prompts f)) eqn:E; simpl; [| assumption].
    destruct (Nat.eqb_spec (List.length (load_prompts f)) 1) as [| Hl]; simpl; [assumption |].
    intros Hp. assert (Hl' := dict_pop_length pid (load_prompts f)). rewrite Hp in Hl'. simpl in Hl'.
    destruct (load_prompts f) as [| x [| y d]]; simpl in *; try congruence.
    specialize (Hl' ltac:(congruence)). discriminate.
  - unfold activate_prompt. destruct (dict_get pid _); simpl; [| assumption].
    destruct (activate_all _ _ _ _ _) as [d' |] eqn:E; simpl; [| assumption].
    apply activate_all_keys in E. intros ->. apply Hf. destruct (load_prompts f); [reflexivity | discriminate].
Qed.

Lemma serve_nonempty rs : forall f,
  load_prompts f <> [] -> load_prompts (serve rs f) <> [].
Proof.
  induction rs as [| r rs IH]; simpl; intros f Hf; auto. apply IH, handle_nonempty, Hf.
Qed.

(** Once [initialize_default_prompt] has run at startup, no sequence of
    requests to the prompt endpoints leaves the file without a prompt. *)
Theorem prompts_never_emptied instruction now rs f :
  load_prompts (serve rs (initialize_default_prompt instruction now f)) <> [].
Proof.
  apply serve_nonempty. unfold initialize_default_prompt.
  destruct (load_prompts f) eqn:E; simpl; [discriminate |]. rewrite E. discriminate.
Qed.

(** [initialize_default_prompt] writes the default prompt, active, only
    into an empty file, and running it again changes nothing. *)
Theorem initialize_default_prompt_spec instruction now f :
  (load_prompts f = [] ->
     initialize_default_prompt instruction now f = Some [("nebula-talks", default_prompt instruction now)] /\
     get_active_prompt (initialize_default_prompt instruction now f) = Reply (default_prompt instruction now)) /\
  (load_prompts f <> [] -> initialize_default_prompt instruction now f = f) /\
  initialize_default_prompt instruction now (initialize_default_prompt instruction now f) =
    initialize_default_prompt instruction now f.
Proof.
  unfold initialize_default_prompt. split; [| split].
  - intros ->. split; reflexivity.
  - destruct (load_prompts f); [congruence | reflexivity].
  - destruct (load_prompts f) eqn:E; simpl; [reflexivity |]. rewrite E. reflexivity.
Qed.

Lemma first_active_app_inactive l fields :
  dict_get "is_active" fields = Some (JBool false) ->
  first_active (l ++ [JObj fields]) = first_active l.
Proof.
  intros Hf. induction l as [| x l IH]; simpl.
  - rewrite Hf. reflexivity.
  - destruct x; try reflexivity. rewrite IH. reflexivity.
Qed.

(** [create_prompt] refuses a name whose id is taken and leaves the file
    as it was; otherwise it appends the new prompt, inactive, so that it
    can be read back and the active prompt does not change. *)
Theorem create_prompt_spec now lower p f :
  let pid := prompt_slug lower (name p) in
  (dict_get pid (load_prompts f) <> None ->
     create_prompt now lower p f = (HttpError 400 "Prompt with this name already exists", f)) /\
  (dict_get pid (load_prompts f) = None ->
     let pd := new_prompt_data pid p now in
     create_prompt now lower p f = (Reply pd, Some (load_prompts f ++ [(pid, pd)])) /\
     get_prompt pid (snd (create_prompt now lower p f)) = Reply pd /\
     (forall k, k <> pid -> get_prompt k (snd (create_prompt now lower p f)) = get_prompt k f) /\
     get_active_prompt (snd (create_prompt now lower p f)) = get_active_prompt f).
Proof.
  intros pid. unfold create_prompt. fold pid. split.
  - intros H. destruct (dict_get pid (load_prompts f)); [reflexivity | congruence].
  - intros H. set (pd := new_prompt_data pid p now). rewrite H.
    split; [rewrite dict_set_absent by assumption; reflexivity |]. unfold get_prompt; simpl.
    split; [| split].
    + rewrite dict_get_dict_set, String.eqb_refl. reflexivity.
    + intros k Hk. rewrite dict_get_dict_set. neq_rw. reflexivity.
    + unfold get_active_prompt. simpl. rewrite dict_set_absent by assumption. rewrite map_app. simpl.
      unfold pd, new_prompt_data. rewrite first_active_app_inactive by reflexivity. reflexivity.
Qed.

(** Two names with the same id: the second [create_prompt] is refused,
    whatever the first one did. *)
Theorem create_prompt_same_slug now1 now2 lower p1 p2 f :
  prompt_slug lower (name p1) = prompt_slug lower (name p2) ->
  create_prompt now2 lower p2 (snd (create_prompt now1 lower p1 f)) =
    (HttpError 400 "Prompt with this name already exists", snd (create_prompt now1 lower p1 f)).
Proof.
  intros Hs. unfold create_prompt at 1. rewrite <- Hs.
  unfold create_prompt. destruct (dict_get (prompt_slug lower (name p1)) (load_prompts f)) eqn:E.
  - simpl. rewrite E. reflexivity.
  - simpl. rewrite dict_get_dict_set, String.eqb_refl. reflexivity.
Qed.

Lemma dict_get_dict_pop_other k pid d :
  k <> pid -> dict_get k (dict_pop pid d) = dict_get k d.
Proof.
  intros Hk. induction d as [| [k1 v1] d IH]; simpl; [reflexivity |].
  destruct (String.eqb_spec pid k1) as [-> | Hne]; simpl.
  - neq_rw. reflexivity.
  - rewrite IH. reflexivity.
Qed.

Lemma dict_get_dict_pop_self pid d :
  NoDup (map fst d) -> dict_get pid (dict_pop pid d) = None.
Proof.
  induction d as [| [k1 v1] d IH]; simpl; intros Hn; [reflexivity |].
  apply NoDup_cons_iff in Hn as [Hnot Hn].
  destruct (String.eqb_spec pid k1) as [-> | Hne]; simpl.
  - destruct (dict_get k1 d) eqn:E; [| reflexivity].
    exfalso. apply Hnot, dict_get_in_keys. congruence.
  - neq_rw. auto.
Qed.

(** [delete_prompt] answers 404 for an unknown id and 400 for the last
    prompt, leaving the file as it was; otherwise it removes exactly the
    prompt it returns: the id is then unknown and every other prompt can
    still be read as before. *)
Theorem delete_prompt_spec pid f :
  NoDup (map fst (load_prompts f)) ->
  (dict_get pid (load_prompts f) = None ->
     delete_prompt pid f = (HttpError 404 "Prompt not found", f)) /\
  (forall v, dict_get pid (load_prompts f) = Some v ->
     (List.length (load_prompts f) = 1 ->
        delete_prompt pid f = (HttpError 400 "Cannot delete the only prompt", f)) /\
     (List.length (load_prompts f) <> 1 ->
        fst (delete_prompt pid f) = Reply (JObj [("message", JStr "Prompt deleted"); ("deleted", v)]) /\
        get_prompt pid (snd (delete_prompt pid f)) = HttpError 404 "Prompt not found" /\
        (forall k, k <> pid -> get_prompt k (snd (delete_prompt pid f)) = get_prompt k f) /\
        List.length (load_prompts (snd (delete_prompt pid f))) = pred (List.length (load_prompts f)))).
Proof.
  intros Hn. unfold delete_prompt. split.
  - intros ->. reflexivity.
  - intros v Hv. rewrite Hv. split.
    + intros ->. reflexivity.
    + intros Hl. apply Nat.eqb_neq in Hl. rewrite Hl. simpl.
      split; [reflexivity |]. unfold get_prompt; simpl.
      split; [rewrite dict_get_dict_pop_self by assumption; reflexivity |].
      split; [intros k Hk; rewrite dict_get_dict_pop_other by assumption; reflexivity |].
      apply dict_pop_length. congruence.
Qed.

(** The prompt endpoints write the file only when they succeed: a
    refused request leaves it as it was, and so does an [update_prompt]
    that fails with an exception. *)
Theorem prompt_errors_keep_file r f :
  (forall status detail, fst (handle r f) = HttpError status detail -> snd (handle r f) = f) /\
  (forall now pid u, fst (update_prompt now pid u f) = Crash -> snd (update_prompt now pid u f) = f).
Proof.
  split.
  - intros status detail.
    destruct r as [now lower p | now pid u | pid | now py_str pid]; simpl.
    + unfold create_prompt. destruct (dict_get _ _); simpl; [reflexivity | discriminate].
    + unfold update_prompt. destruct (dict_get pid _); simpl; [| reflexivity].
      destruct (update_fields _ _ _ _) as [d' |]; simpl; [| discriminate].
      destruct (dict_get pid d'); discriminate.
    + unfold delete_prompt. destruct (dict_get pid _); simpl; [| reflexivity].
      destruct (Nat.eqb _ 1); simpl; [reflexivity | discriminate].
    + unfold activate_prompt. destruct (dict_get pid _); simpl; [| reflexivity].
      destruct (activate_all _ _ _ _ _) as [d' |]; simpl; [| discriminate].
      destruct (dict_get pid d') as [[| | | | | fields] |]; try discriminate.
      destruct (dict_get "name" fields); discriminate.
  - intros now pid u. unfold update_prompt.
    destruct (dict_get pid (load_prompts f)) eqn:E; simpl; [| discriminate].
    destruct (update_fields now pid u (load_prompts f)) as [d' |] eqn:Eu; simpl; [| reflexivity].
    apply update_fields_keys in Eu.
    assert (Hd : dict_get pid d' <> None).
    { apply in_keys_dict_get. rewrite Eu. apply dict_get_in_keys. congruence. }
    destruct (dict_get pid d'); [discriminate | congruence].
Qed.

(** [get_config] refuses to answer without a non-empty
    [GEMINI_API_KEY], whatever the file holds; with one, its
    [eventPrompt] is the prompt [get_active_prompt] returns, or null
    when that endpoint answers 404. *)
Theorem get_config_active_prompt api_key f :
  ((api_key = None \/ api_key = Some EmptyString) ->
     get_config api_key f = HttpError 500 "GEMINI_API_KEY not configured") /\
  (forall k, api_key = Some k -> k <> EmptyString ->
     (forall p, get_active_prompt f = Reply p ->
        get_config api_key f = Reply (JObj [("apiKey", JStr k); ("eventPrompt", p)])) /\
     (get_active_prompt f = HttpError 404 "No active prompt found" ->
        get_config api_key f = Reply (JObj [("apiKey", JStr k); ("eventPrompt", JNull)])) /\
     (get_active_prompt f = Crash -> get_config api_key f = Crash)).
Proof.
  unfold get_config, get_active_prompt. split.
  - intros [-> | ->]; reflexivity.
  - intros k -> Hk. apply String.eqb_neq in Hk. rewrite Hk.
    destruct (first_active (map snd (load_prompts f))) as [[p |] |];
      repeat split; intros; congruence.
Qed.
End PromptFacts.


(* ------------------------------------------------------------------ *)
(** ** myCobot gestures and disconnection *)
(* ------------------------------------------------------------------ *)

Module MyCobotOpsFacts.
Import MyCobot MyCobotOps.

(** [trigger_mycobot_gesture] refuses a name outside [MYCOBOT_GESTURES]
    with the list of the six gestures, without touching the client; a
    known gesture is sent as a frame with empty data when the client is
    connected, and reported as failed, the client unchanged, when it is
    not. *)
Theorem trigger_mycobot_gesture_spec c gesture now send_ok :
  (dict_get gesture MYCOBOT_GESTURES = None ->
     trigger_mycobot_gesture c gesture now send_ok =
       (Prompts.HttpError 400 "Unknown gesture. Available: wave, thumbs_up, point, greet, celebrate, home", c)) /\
  (forall m, dict_get gesture MYCOBOT_GESTURES = Some m ->
     (is_connected c = false ->
        trigger_mycobot_gesture c gesture now send_ok = (gesture_reply false gesture m, c)) /\
     (is_connected c = true ->
        trigger_mycobot_gesture c gesture now send_ok =
          if send_ok
          then (gesture_reply true gesture m,
                mkClient true (websocket c)
                  (written c ++ [[("signalType", JStr gesture); ("timestamp", JStr now);
                                  ("data", JObj [])]]))
          else (gesture_reply false gesture m, mkClient false (websocket c) (written c)))).
Proof.
  unfold trigger_mycobot_gesture. split.
  - intros ->. reflexivity.
  - intros m ->. unfold send_signal, is_connected.
    destruct c as [[|] [h |] w]; simpl; split; intros H; try discriminate; try reflexivity.
    destruct send_ok; reflexivity.
Qed.

(** [MyCobotClient.disconnect] does nothing without a websocket and
    leaves the client as it was when [close()] raises; after a
    successful close the handle is kept but the client counts as
    disconnected, so a signal or gesture sent before the reconnect loop
    of [connect] opens a new connection fails and writes nothing; once
    that loop has reconnected, sends go through again. *)
Theorem disconnect_spec c :
  (websocket c = None -> forall ok, disconnect c ok = (false, c)) /\
  (websocket c <> None ->
     disconnect c false = (true, c) /\
     exists c', disconnect c true = (false, c') /\
       websocket c' = websocket c /\ written c' = written c /\ is_connected c' = false /\
       (forall st d now ok, send_signal c' st d now ok = (false, c')) /\
       (forall g m now ok, dict_get g MYCOBOT_GESTURES = Some m ->
          trigger_mycobot_gesture c' g now ok = (gesture_reply false g m, c')) /\
       (forall h st d now,
          send_signal (connect_opened c' h) st d now true =
            (true, mkClient true (Some h) (written c ++ [message st now d])))).
Proof.
  unfold disconnect. split.
  - intros -> ok. reflexivity.
  - intros Hw. destruct (websocket c) as [h |] eqn:E; [| congruence]. split; [reflexivity |].
    eexists. split; [reflexivity |]. simpl.
    split; [reflexivity |]. split; [reflexivity |]. split; [reflexivity |].
    split; [intros st d now ok; reflexivity |].
    split.
    + intros g m now ok Hg. unfold trigger_mycobot_gesture. simpl. rewrite Hg. reflexivity.
    + intros h' st d now. reflexivity.
Qed.

End MyCobotOpsFacts.


(* ------------------------------------------------------------------ *)
(** ** Runs of the registry properties on concrete robots *)
(* ------------------------------------------------------------------ *)

Module RegistryExamples.
Import Dispatch Observe Fixtures Registry RegistryFixtures RegistryFacts.

Lemma load_saved_registry_witness :
  load_robots (Some (robots_file_data [mqtt_robot; ws_robot])) empty_world = (Ok tt, robots_world).
Proof.
  apply (load_saved_registry [(JStr "m1", mqtt_robot); (JStr "w1", ws_robot)] empty_world).
  - reflexivity.
  - split; [repeat constructor | reflexivity].
Defined.

Lemma delete_robot_keeps_connections_witness :
  delete_robot_request all_ok "w1" ws_cached_world =
    (Ok (delete_reply "w1"),
     mkWorld (mkService [] [(JStr "w1", 5%nat)] None []) 7 [EvIo 6 (IoSaveRobots []) true]).
Proof.
  destruct (delete_robot_keeps_connections all_ok "w1" ws_cached_world eq_refl) as [_ H].
  exact (H ws_robot eq_refl).
Defined.

Lemma connector_missing_field_witness :
  send_by_protocol all_ok http_no_url [] empty_world = (Ok false, empty_world).
Proof.
  apply connector_missing_field. reflexivity.
Defined.

Lemma websocket_connection_cache_witness :
  _send_websocket first_ws_send_fails ws_robot [] ws_cached_world =
    (Ok true, mkWorld (svc ws_cached_world) 7 [EvIo 6 (IoWsSend 5 []) true]) /\
  _send_websocket first_ws_send_fails ws_robot [] empty_world =
    (Ok false, mkWorld (svc empty_world) 2
                 [EvIo 0 (IoWsConnect (JStr "ws://w1.local")) true; EvIo 1 (IoWsSend 0 []) false]).
Proof.
  split.
  - destruct (websocket_connection_cache first_ws_send_fails ws_robot [] ws_cached_world eq_refl eq_refl)
      as [H _].
    rewrite (H 5%nat eq_refl). reflexivity.
  - destruct (websocket_connection_cache first_ws_send_fails ws_robot [] empty_world eq_refl eq_refl)
      as [_ H].
    rewrite (H eq_refl). reflexivity.
Defined.

Lemma serial_connection_cache_witness :
  _send_serial all_ok serial_robot [] empty_world =
    (Ok true, mkWorld (mkService [] [] None [(JStr "s1", 0%nat)]) 3
                [EvIo 0 (IoSerialOpen (JStr "/dev/ttyUSB0") (JNum 115200)) true;
                 EvIo 1 (IoSerialWrite 0 []) true; EvIo 2 (IoSerialFlush 0) true]).
Proof.
  destruct (serial_connection_cache all_ok serial_robot [] empty_world eq_refl eq_refl) as [_ H].
  rewrite (H eq_refl). reflexivity.
Defined.
End RegistryExamples.

(* ------------------------------------------------------------------ *)
(** ** Runs of the prompt properties on a concrete file *)
(* ------------------------------------------------------------------ *)

Module PromptExamples.
Import Prompts PromptFixtures PromptFacts.

Lemma activate_prompt_exclusive_witness :
  fst (activate_prompt frozen_now str_of "demo-day" two_prompts) =
    Reply (JObj [("message", JStr "Prompt 'Demo Day' activated");
                 ("prompt", JObj [("id", JStr "demo-day"); ("name", JStr "Demo Day");
                                  ("voice", JStr "Puck"); ("is_active", JBool true);
                                  ("updated_at", JStr "2026-10-17T12:00:00")])]) /\
  get_active_prompt (snd (activate_prompt frozen_now str_of "demo-day" two_prompts)) =
    Reply (JObj [("id", JStr "demo-day"); ("name", JStr "Demo Day");
                 ("voice", JStr "Puck"); ("is_active", JBool true);
                 ("updated_at", JStr "2026-10-17T12:00:00")]).
Proof.
  destruct (activate_prompt_exclusive frozen_now str_of "demo-day" two_prompts)
    as (p' & v & Hs & Hv & _ & _ & _ & Ha & Hr).
  - repeat constructor; simpl; intuition discriminate.
  - reflexivity.
  - discriminate.
  - rewrite Hs, Ha, Hr. vm_compute in Hs. injection Hs as <-. vm_compute in Hv.
    injection Hv as <-. split; reflexivity.
Defined.

Lemma update_prompt_spec_witness :
  get_active_prompt
    (snd (update_prompt "2026-10-17T12:00:00" "demo-day"
            (mkUpdate None None None (Some "Kore") (Some true)) two_prompts)) =
    Reply (JObj [("id", JStr "demo-day"); ("name", JStr "Demo Day");
                 ("voice", JStr "Kore"); ("is_active", JBool true);
                 ("updated_at", JStr "2026-10-17T12:00:00")]).
Proof.
  destruct (update_prompt_spec "2026-10-17T12:00:00" "demo-day"
              (mkUpdate None None None (Some "Kore") (Some true)) two_prompts)
    as (p' & v & Hu & Hv & _ & _ & _ & _ & _ & _ & _ & Ha).
  - repeat constructor; simpl; intuition discriminate.
  - reflexivity.
  - discriminate.
  - rewrite Hu. simpl in Ha. destruct Ha as [_ Ha]. simpl snd. rewrite Ha.
    vm_compute in Hu. injection Hu as <- <-. reflexivity.
Defined.

Lemma create_prompt_same_slug_witness :
  name team_sync <> name team_sync_slash /\
  create_prompt frozen_now ascii_lower team_sync_slash
    (snd (create_prompt frozen_now ascii_lower team_sync two_prompts)) =
    (HttpError 400 "Prompt with this name already exists",
     snd (create_prompt frozen_now ascii_lower team_sync two_prompts)).
Proof.
  split; [discriminate |].
  apply create_prompt_same_slug. reflexivity.
Defined.

Lemma delete_prompt_spec_witness :
  fst (delete_prompt "nebula-talks" two_prompts) =
    Reply (JObj [("message", JStr "Prompt deleted");
                 ("deleted", JObj [("id", JStr "nebula-talks"); ("name", JStr "Nebula Talks");
                                   ("voice", JStr "Orus"); ("is_active", JBool true);
                                   ("updated_at", JStr "2026-10-01T09:00:00")])]) /\
  get_prompt "nebula-talks" (snd (delete_prompt "nebula-talks" two_prompts)) =
    HttpError 404 "Prompt not found" /\
  get_active_prompt (snd (delete_prompt "nebula-talks" two_prompts)) =
    HttpError 404 "No active prompt found".
Proof.
  destruct (delete_prompt_spec "nebula-talks" two_prompts) as [_ H].
  - repeat constructor; simpl; intuition discriminate.
  - destruct (H _ eq_refl) as [_ H2]. destruct (H2 ltac:(discriminate)) as (H3 & H4 & _).
    split; [exact H3 |]. split; [exact H4 | reflexivity].
Defined.
End PromptExamples.
